(** * Kafka offset management of EasyRec's [KafkaInput]

    A shallow embedding of [easy_rec/python/input/kafka_input.py]:
    partition assignment ([_get_topics]), start-offset resolution
    ([__init__]), the per-task high-water-mark tracker
    ([_parse_csv._parse_offset]) and checkpoint restore ([restore]).

    Python integers are [Z]; the dictionaries [_offset_dict] and
    [_task_offset_dict] (int keys, int values) are [gmap Z Z]; a raised
    exception is the [Raise] outcome of [result].  A method that mutates
    [self] before it raises returns the mutated state next to the outcome. *)

From Stdlib Require Import ZArith Ascii String.
From stdpp Require Import gmap strings list.

Local Open Scope string_scope.
Local Open Scope Z_scope.

(** ** Exceptions and outcomes *)

Inductive exn : Type :=
  | ValueError          (* int() of a bad literal, unpacking a wrong arity *)
  | KeyError            (* d[k] for an absent key *)
  | TypeError
  | AttributeError      (* None.offset *)
  | ZeroDivisionError   (* x % 0 *)
  | AssertionError
  | JSONDecodeError
  | Unmodelled.         (* a Python value this development gives no meaning to *)

Inductive result (A : Type) : Type :=
  | Ok (a : A)
  | Raise (e : exn).
Arguments Ok {A} a.
Arguments Raise {A} e.

Definition bind {A B : Type} (r : result A) (k : A → result B) : result B :=
  match r with
  | Ok a => k a
  | Raise e => Raise e
  end.

Notation "'do' x <- r ; k" := (bind r (fun x => k))
  (at level 10, x pattern, r at level 100, k at level 200).

Definition is_ok {A : Type} (r : result A) : bool :=
  match r with Ok _ => true | Raise _ => false end.

(** ** Python text primitives used by the module

    Text is modelled as [string] over ASCII.  ([int] of a [str] with
    characters outside ASCII, which Python decides with its Unicode
    tables, is outside this model and is rejected by [py_int].) *)

Module PyStr.

(** [s.split(':')]: the fields between the separators; always at least
    one field. *)
Fixpoint split (sep : ascii) (s : string) : list string :=
  match s with
  | EmptyString => [EmptyString]
  | String c s' =>
      if Ascii.eqb c sep then EmptyString :: split sep s'
      else match split sep s' with
           | f :: fs => String c f :: fs
           | [] => [String c EmptyString]
           end
  end.

(** ASCII white space as [int] skips it: tab, LF, VT, FF, CR, space. *)
Definition is_space (c : ascii) : bool :=
  let n := nat_of_ascii c in
  ((9 <=? n)%nat && (n <=? 13)%nat) || (n =? 32)%nat.

Definition is_digit (c : ascii) : bool :=
  let n := nat_of_ascii c in (48 <=? n)%nat && (n <=? 57)%nat.

Definition digit_val (c : ascii) : Z := Z.of_nat (nat_of_ascii c) - 48.

Fixpoint lstrip (s : string) : string :=
  match s with
  | String c s' => if is_space c then lstrip s' else s
  | EmptyString => EmptyString
  end.

Fixpoint rstrip (s : string) : string :=
  match s with
  | EmptyString => EmptyString
  | String c s' =>
      match rstrip s' with
      | EmptyString => if is_space c then EmptyString else String c EmptyString
      | r => String c r
      end
  end.

Definition strip (s : string) : string := lstrip (rstrip s).

(** The digits of a decimal literal after its first digit: digits, each
    optionally preceded by one underscore. [after_us] records that the
    previous character was an underscore. *)
Fixpoint digits (after_us : bool) (acc : Z) (s : string) : option Z :=
  match s with
  | EmptyString => if after_us then None else Some acc
  | String c s' =>
      if is_digit c then digits false (10 * acc + digit_val c) s'
      else if Ascii.eqb c "_" then
        (if after_us then None else digits true acc s')
      else None
  end.

Definition unsigned_literal (s : string) : option Z :=
  match s with
  | String c s' => if is_digit c then digits false (digit_val c) s' else None
  | EmptyString => None
  end.

(** [int(s)] in base 10: surrounding white space, an optional sign, then
    a decimal literal; anything else raises [ValueError].  (The bound
    recent CPython versions put on the number of digits is not modelled.) *)
Definition py_int (s : string) : result Z :=
  let body := strip s in
  let signed :=
    match body with
    | String "-" r => Z.opp <$> unsigned_literal r
    | String "+" r => unsigned_literal r
    | _ => unsigned_literal body
    end in
  match signed with
  | Some z => Ok z
  | None => Raise ValueError
  end.

(** ['sub' in s] *)
Fixpoint contains (sub s : string) : bool :=
  String.prefix sub s ||
  match s with
  | EmptyString => false
  | String _ s' => contains sub s'
  end.

End PyStr.

(** ** The offset tracker: [_parse_csv._parse_offset] *)

Module Tracker.

(** [k, v = kv.split(':'); k = int(k); v = int(v)] *)
Definition parse_kv (kv : string) : result (Z * Z) :=
  match PyStr.split ":" kv with
  | [ks; vs] =>
      do k <- PyStr.py_int ks;
      do v <- PyStr.py_int vs;
      Ok (k, v)
  | _ => Raise ValueError
  end.

(** [if k not in d or v > d[k]: d[k] = v] *)
Definition observe (d : gmap Z Z) (k v : Z) : gmap Z Z :=
  match d !! k with
  | None => <[k := v]> d
  | Some old => if old <? v then <[k := v]> d else d
  end.

(** The [for kv in message_offset] loop on [self._task_offset_dict]: the
    dictionary as the loop leaves it, and whether the loop completed. *)
Fixpoint parse_loop (d : gmap Z Z) (message_offset : list string)
  : gmap Z Z * result unit :=
  match message_offset with
  | [] => (d, Ok tt)
  | kv :: rest =>
      match parse_kv kv with
      | Ok (k, v) => parse_loop (observe d k v) rest
      | Raise e => (d, Raise e)
      end
  end.

(** [_parse_offset(message_offset)]: returns the snapshot
    [json.dumps(self._task_offset_dict)], kept here as the dictionary it
    serialises. *)
Definition _parse_offset (d : gmap Z Z) (message_offset : list string)
  : gmap Z Z * result (gmap Z Z) :=
  let '(d', r) := parse_loop d message_offset in
  (d', do _ <- r; Ok d').

(** The tracker fed with already decoded pairs. *)
Definition observe_all (d : gmap Z Z) (obs : list (Z * Z)) : gmap Z Z :=
  foldl (λ acc kv, observe acc kv.1 kv.2) d obs.

(** The token list [toks] decodes to the pairs [obs]. *)
Definition decodes (toks : list string) (obs : list (Z * Z)) : Prop :=
  Forall2 (λ t kv, parse_kv t = Ok kv) toks obs.

(** The highest offset seen for partition [p], starting from what the
    dictionary held for it ([None]: nothing). *)
Definition high_water (p : Z) (cur : option Z) (obs : list (Z * Z)) : option Z :=
  foldl (λ acc kv,
           if bool_decide (kv.1 = p)
           then Some (match acc with None => kv.2 | Some c => Z.max c kv.2 end)
           else acc) cur obs.

(** Successive calls of [_parse_offset], one per batch, on the shared
    dictionary [self._task_offset_dict]: what each call returns or raises.
    A call that raises leaves the dictionary as far as its loop got, and
    the calls for the later batches are still made on it. *)
Fixpoint outcomes (d : gmap Z Z) (batches : list (list string))
  : list (result (gmap Z Z)) :=
  match batches with
  | [] => []
  | b :: rest =>
      let '(d', r) := _parse_offset d b in
      r :: outcomes d' rest
  end.

(** The snapshots returned during the run, in order: those of the calls
    that did not raise. *)
Definition snapshots (d : gmap Z Z) (batches : list (list string))
  : list (gmap Z Z) :=
  omap (λ r, match r with Ok snap => Some snap | Raise _ => None end)
       (outcomes d batches).

End Tracker.

(** ** JSON values and the collaborators outside the module *)

(** What [json.loads] hands back, as far as this module looks at it: an
    object is a [dict] with string keys (members in insertion order, keys
    distinct); the offsets and the timestamp it reads out of it are
    integers.  Other member values ([JOther]) and other top-level values
    ([JNotObject]) are not given a meaning: the model answers
    [Raise Unmodelled] where the code would touch one. *)
Inductive jvalue : Type :=
  | JInt (z : Z)
  | JOther.

Inductive json : Type :=
  | JObject (members : list (string * jvalue))
  | JNotObject.

(** [offset_dict[key]] on a parsed object. *)
Fixpoint dict_get (members : list (string * jvalue)) (key : string)
  : option jvalue :=
  match members with
  | [] => None
  | (k, v) :: rest => if String.eqb k key then Some v else dict_get rest key
  end.

(** kafka-python's [OffsetAndTimestamp]. *)
Record OffsetAndTimestamp : Type := {
  offset : Z;
  timestamp : Z
}.

(** The [KafkaConsumer] calls the constructor makes.
    [partitions_for_topic] gives the set of partition ids of a topic, or
    [None] for an unknown topic; [offsets_for_times] takes the topic and
    the map partition ↦ timestamp (ms) and gives, per partition, the
    earliest offset at or after the timestamp, or [None] when the broker
    has no such message. *)
Record KafkaConsumer : Type := {
  partitions_for_topic : string → option (list Z);
  offsets_for_times : string → list (Z * Z) → list (Z * option OffsetAndTimestamp)
}.

(** [kafka_config]: the fields the offset logic reads. *)
Record KafkaConfig : Type := {
  topic : string;
  offset_info : string
}.

Inductive ModeKeys : Type := TRAIN | EVAL | PREDICT.

(** '%s:%d:%d' % (topic, part_id, offset), kept as its three components. *)
Record topic_entry : Type := {
  te_topic : string;
  te_part : Z;
  te_offset : Z
}.

(** The attributes of a [KafkaInput] object the offset logic uses.
    [_num_partition] is only set when [_kafka] is not [None]. *)
Record KafkaInput : Type := {
  chief_redundant : bool;          (* self._data_config.chief_redundant *)
  _mode : option ModeKeys;         (* set by the base class before _build *)
  _task_index : Z;
  _task_num : Z;
  _kafka : option KafkaConfig;
  _num_partition : option Z;
  _offset_dict : gmap Z Z;
  _task_offset_dict : gmap Z Z
}.

Definition set_offset_dict (self : KafkaInput) (d : gmap Z Z) : KafkaInput :=
  {| chief_redundant := chief_redundant self;
     _mode := _mode self;
     _task_index := _task_index self;
     _task_num := _task_num self;
     _kafka := _kafka self;
     _num_partition := _num_partition self;
     _offset_dict := d;
     _task_offset_dict := _task_offset_dict self |}.

Definition set_task_offset_dict (self : KafkaInput) (d : gmap Z Z) : KafkaInput :=
  {| chief_redundant := chief_redundant self;
     _mode := _mode self;
     _task_index := _task_index self;
     _task_num := _task_num self;
     _kafka := _kafka self;
     _num_partition := _num_partition self;
     _offset_dict := _offset_dict self;
     _task_offset_dict := d |}.

(** The same object run as task [task_index] of [task_num]. *)
Definition with_task (self : KafkaInput) (task_index task_num : Z) : KafkaInput :=
  {| chief_redundant := chief_redundant self;
     _mode := _mode self;
     _task_index := task_index;
     _task_num := task_num;
     _kafka := _kafka self;
     _num_partition := _num_partition self;
     _offset_dict := _offset_dict self;
     _task_offset_dict := _task_offset_dict self |}.

(** The same object with [data_config.chief_redundant] set to [b]. *)
Definition with_redundant (self : KafkaInput) (b : bool) : KafkaInput :=
  {| chief_redundant := b;
     _mode := _mode self;
     _task_index := _task_index self;
     _task_num := _task_num self;
     _kafka := _kafka self;
     _num_partition := _num_partition self;
     _offset_dict := _offset_dict self;
     _task_offset_dict := _task_offset_dict self |}.

(** ** Start-offset resolution: [KafkaInput.__init__] *)

Module Resolver.

(** Timestamp branch, lines 56-57:
    [for part in part_offsets:
       self._offset_dict[part.partition] = part_offsets[part].offset] *)
Fixpoint timestamp_loop (d : gmap Z Z)
    (part_offsets : list (Z * option OffsetAndTimestamp)) : result (gmap Z Z) :=
  match part_offsets with
  | [] => Ok d
  | (partition, Some ot) :: rest =>
      timestamp_loop (<[partition := offset ot]> d) rest
  | (partition, None) :: rest => Raise AttributeError
  end.

(** Explicit branch, lines 61-63:
    [for part in offset_dict:
       part_id = int(part)
       self._offset_dict[part_id] = offset_dict[part]] *)
Fixpoint explicit_loop (d : gmap Z Z) (members : list (string * jvalue))
  : result (gmap Z Z) :=
  match members with
  | [] => Ok d
  | (part, v) :: rest =>
      do part_id <- PyStr.py_int part;
      match v with
      | JInt o => explicit_loop (<[part_id := o]> d) rest
      | JOther => Raise Unmodelled
      end
  end.

(** Lines 50-59. *)
Definition by_timestamp (consumer : KafkaConsumer) (kafka : KafkaConfig)
    (partitions : list Z) (offset_dict : json) : result (gmap Z Z) :=
  match offset_dict with
  | JNotObject => Raise Unmodelled
  | JObject members =>
      match dict_get members "timestamp" with
      | None => Raise KeyError
      | Some JOther => Raise Unmodelled
      | Some (JInt ts) =>
          let input_map := (λ part_id, (part_id, ts * 1000)) <$> partitions in
          timestamp_loop ∅ (offsets_for_times consumer (topic kafka) input_map)
      end
  end.

(** Lines 61-63. *)
Definition explicit (offset_dict : json) : result (gmap Z Z) :=
  match offset_dict with
  | JNotObject => Raise Unmodelled
  | JObject members => explicit_loop ∅ members
  end.

(** Lines 47-63: the offsets determined for the partitions. *)
Definition resolve (json_loads : string → result json)
    (consumer : KafkaConsumer) (kafka : KafkaConfig) (partitions : list Z)
  : result (gmap Z Z) :=
  if String.eqb (offset_info kafka) "" then Ok ∅
  else
    do offset_dict <- json_loads (offset_info kafka);
    if PyStr.contains "timestamp" (offset_info kafka)
    then by_timestamp consumer kafka partitions offset_dict
    else explicit offset_dict.

End Resolver.

(** [KafkaInput(data_config, feature_config, kafka_config, task_index,
    task_num)].  An exception leaves no object behind. *)
Definition __init__ (json_loads : string → result json)
    (consumer : KafkaConsumer) (data_config_chief_redundant : bool)
    (kafka_config : option KafkaConfig) (task_index task_num : Z)
  : result KafkaInput :=
  let base num d :=
    {| chief_redundant := data_config_chief_redundant;
       _mode := None;
       _task_index := task_index;
       _task_num := task_num;
       _kafka := kafka_config;
       _num_partition := num;
       _offset_dict := d;
       _task_offset_dict := ∅ |} in
  match kafka_config with
  | None => Ok (base None ∅)
  | Some kafka =>
      match partitions_for_topic consumer (topic kafka) with
      | None => Raise TypeError            (* len(None) *)
      | Some partitions =>
          do d <- Resolver.resolve json_loads consumer kafka partitions;
          Ok (base (Some (Z.of_nat (length partitions))) d)
      end
  end.

(** The [_offset_dict] of the object a constructor call yields. *)
Definition offsets_of (built : result KafkaInput) : result (gmap Z Z) :=
  do self <- built; Ok (_offset_dict self).

(** [self._mode = mode], done by the base class before [_build]. *)
Definition set_mode (self : KafkaInput) (mode : ModeKeys) : KafkaInput :=
  {| chief_redundant := chief_redundant self;
     _mode := Some mode;
     _task_index := _task_index self;
     _task_num := _task_num self;
     _kafka := _kafka self;
     _num_partition := _num_partition self;
     _offset_dict := _offset_dict self;
     _task_offset_dict := _task_offset_dict self |}.

(** ** Checkpoint restore: [KafkaInput.restore] *)

Module Checkpoint.

(** Lines 125-129, on the dictionary [self._offset_dict]:
    [for k in offset_dict:
       v = offset_dict[k]; k = int(k)
       if k not in self._offset_dict or v > self._offset_dict[k]:
         self._offset_dict[k] = v] *)
Fixpoint restore_loop (d : gmap Z Z) (members : list (string * jvalue))
  : gmap Z Z * result unit :=
  match members with
  | [] => (d, Ok tt)
  | (ks, v) :: rest =>
      match PyStr.py_int ks with
      | Raise e => (d, Raise e)
      | Ok k =>
          match v with
          | JInt o => restore_loop (Tracker.observe d k o) rest
          | JOther => (d, Raise Unmodelled)
          end
      end
  end.

(** The members of a sidecar object decode to the pairs [obs]: every
    key is an integer literal and every value an integer. *)
Definition decodes (members : list (string * jvalue)) (obs : list (Z * Z))
  : Prop :=
  Forall2 (λ m kv, PyStr.py_int m.1 = Ok kv.1 ∧ m.2 = JInt kv.2) members obs.

(** [restore(checkpoint_path)].  [gfile] is the file system: the text of
    the file at a path, [None] when [gfile.Exists] is false. *)
Definition restore (json_loads : string → result json)
    (gfile : string → option string)
    (self : KafkaInput) (checkpoint_path : option string)
  : KafkaInput * result unit :=
  match checkpoint_path with
  | None => (self, Ok tt)
  | Some path =>
      let offset_path := path ++ ".offset" in
      match gfile offset_path with
      | None => (self, Ok tt)
      | Some text =>
          match json_loads text with
          | Raise e => (self, Raise e)
          | Ok JNotObject => (set_offset_dict self ∅, Raise Unmodelled)
          | Ok (JObject offset_dict) =>
              (* self._offset_dict = {} *)
              let '(d, r) := restore_loop ∅ offset_dict in
              (set_offset_dict self d, r)
          end
      end
  end.

End Checkpoint.

(** ** Partition assignment: [KafkaInput._get_topics] *)

Module Assigner.

Definition is_train (mode : option ModeKeys) : bool :=
  match mode with Some TRAIN => true | _ => false end.

(** Lines 132-136: the task index and task count the loop uses. *)
Definition effective (self : KafkaInput) : Z * Z :=
  if chief_redundant self && is_train (_mode self)
  then (Z.max (_task_index self - 1) 0, Z.max (_task_num self - 1) 1)
  else (_task_index self, _task_num self).

(** Lines 140-144, from the current [topics] and [_task_offset_dict].
    [kafka] is [self._kafka], read for its topic when a partition is
    assigned. *)
Fixpoint topics_loop (kafka : option KafkaConfig) (offset_dict : gmap Z Z)
    (task_index task_num : Z) (part_ids : list Z)
    (topics : list topic_entry) (task_offset_dict : gmap Z Z)
  : gmap Z Z * result (list topic_entry) :=
  match part_ids with
  | [] => (task_offset_dict, Ok topics)
  | part_id :: rest =>
      if task_num =? 0 then (task_offset_dict, Raise ZeroDivisionError)
      else if part_id mod task_num =? task_index then
        let offset := default 0 (offset_dict !! part_id) in
        match kafka with
        | None => (task_offset_dict, Raise AttributeError)
        | Some k =>
            topics_loop kafka offset_dict task_index task_num rest
              (app topics [ {| te_topic := topic k; te_part := part_id;
                               te_offset := offset |} ])
              (<[part_id := offset]> task_offset_dict)
        end
      else
        topics_loop kafka offset_dict task_index task_num rest
          topics task_offset_dict
  end.

(** [_get_topics()]. *)
Definition _get_topics (self : KafkaInput)
  : KafkaInput * result (list topic_entry) :=
  let '(task_index, task_num) := effective self in
  (* self._task_offset_dict = {} *)
  match _num_partition self with
  | Some n =>
      let '(d, r) :=
        topics_loop (_kafka self) (_offset_dict self) task_index task_num
          (seqZ 0 n) [] ∅ in
      (set_task_offset_dict self d,
       do topics <- r;
       if (0 <? Z.of_nat (length topics)) then Ok topics
       else Raise AssertionError)
  | None => (set_task_offset_dict self ∅, Raise AttributeError)
  end.

(** The policy in the words of the specification: partition [p] of
    [0 .. n-1] belongs to the task whose effective index is
    [p mod task_num]. *)
Definition owned (task_index task_num n : Z) : list Z :=
  filter (λ p, p mod task_num = task_index) (seqZ 0 n).

(** The entry appended for an assigned partition. *)
Definition entry (topic_name : string) (offset_dict : gmap Z Z) (p : Z)
  : topic_entry :=
  {| te_topic := topic_name; te_part := p;
     te_offset := default 0 (offset_dict !! p) |}.

(** The start offsets of the partitions [parts], each taken from
    [offset_dict] or 0, added to a dictionary in that order. *)
Definition start_offsets (offset_dict : gmap Z Z) (init : gmap Z Z)
    (parts : list Z) : gmap Z Z :=
  foldl (λ acc p, <[p := default 0 (offset_dict !! p)]> acc) init parts.

(** The partitions of the topics handed to the dataset. *)
Definition assigned (topics : list topic_entry) : list Z :=
  te_part <$> topics.

End Assigner.

(** ** A reader for the offset wire format

    The texts this module exchanges ([offset_info], the [.offset] sidecar)
    are flat JSON objects with integer members, such as the dictionaries
    [_parse_offset] dumps.  [Json.loads_flat] reads that fragment the way
    [json.loads] does and answers [Raise Unmodelled] for every other text;
    the statements below are about any [json_loads], and the examples run
    them with this one. *)

Module Json.

Inductive token : Type :=
  | TLBrace | TRBrace | TColon | TComma
  | TString (s : string)
  | TNumber (text : string).

Inductive lex_state : Type :=
  | LTop
  | LStr (acc : string)
  | LNum (text : string).

Definition is_ws (c : ascii) : bool :=
  let n := nat_of_ascii c in
  (n =? 32)%nat || (n =? 9)%nat || (n =? 10)%nat || (n =? 13)%nat.

Definition punct (c : ascii) : option token :=
  if Ascii.eqb c "{" then Some TLBrace
  else if Ascii.eqb c "}" then Some TRBrace
  else if Ascii.eqb c ":" then Some TColon
  else if Ascii.eqb c "," then Some TComma
  else None.

Definition quote : ascii := ascii_of_nat 34.
Definition backslash : ascii := ascii_of_nat 92.

Definition snoc (s : string) (c : ascii) : string := s ++ String c EmptyString.

Fixpoint lex (st : lex_state) (s : string) : option (list token) :=
  match s with
  | EmptyString =>
      match st with
      | LTop => Some []
      | LStr _ => None
      | LNum text => Some [TNumber text]
      end
  | String c s' =>
      let top (emitted : list token) :=
        if is_ws c then app emitted <$> lex LTop s'
        else if Ascii.eqb c quote then app emitted <$> lex (LStr EmptyString) s'
        else match punct c with
             | Some t => (λ ts, app emitted (t :: ts)) <$> lex LTop s'
             | None => None
             end in
      match st with
      | LTop =>
          if PyStr.is_digit c || Ascii.eqb c "-"
          then lex (LNum (String c EmptyString)) s'
          else top []
      | LStr acc =>
          if Ascii.eqb c quote then (TString acc ::.) <$> lex LTop s'
          else if Ascii.eqb c backslash then None
          else if (nat_of_ascii c <? 32)%nat then None
          else lex (LStr (snoc acc c)) s'
      | LNum text =>
          if PyStr.is_digit c then lex (LNum (snoc text c)) s'
          else top [TNumber text]
      end
  end.

Fixpoint all_digits (s : string) : bool :=
  match s with
  | EmptyString => true
  | String c s' => PyStr.is_digit c && all_digits s'
  end.

Fixpoint digits_value (acc : Z) (s : string) : Z :=
  match s with
  | EmptyString => acc
  | String c s' => digits_value (10 * acc + PyStr.digit_val c) s'
  end.

(** A JSON integer: an optional minus sign, then 0 or a digit string
    that does not start with 0. *)
Definition unsigned_number (s : string) : option Z :=
  match s with
  | EmptyString => None
  | String "0" EmptyString => Some 0
  | String "0" _ => None
  | _ => if all_digits s then Some (digits_value 0 s) else None
  end.

Definition number (text : string) : option Z :=
  match text with
  | String "-" r => Z.opp <$> unsigned_number r
  | _ => unsigned_number text
  end.

(** [d[k] = v] on a dictionary in insertion order. *)
Fixpoint dict_set (members : list (string * jvalue)) (k : string) (v : jvalue)
  : list (string * jvalue) :=
  match members with
  | [] => [(k, v)]
  | (k', v') :: rest =>
      if String.eqb k' k then (k', v) :: rest else (k', v') :: dict_set rest k v
  end.

(** The members after the opening brace, up to the end of the text. *)
Fixpoint members (acc : list (string * jvalue)) (ts : list token)
  : option (list (string * jvalue)) :=
  match ts with
  | TString k :: TColon :: TNumber text :: rest =>
      z ← number text;
      match rest with
      | [TRBrace] => Some (dict_set acc k (JInt z))
      | TComma :: rest' => members (dict_set acc k (JInt z)) rest'
      | _ => None
      end
  | _ => None
  end.

Definition loads_flat (text : string) : result json :=
  let parsed :=
    ts ← lex LTop text;
    match ts with
    | [TLBrace; TRBrace] => Some []
    | TLBrace :: rest => members [] rest
    | _ => None
    end in
  match parsed with
  | Some ms => Ok (JObject ms)
  | None => Raise Unmodelled
  end.

(** The text [{"k1": v1, "k2": v2, ...}], for writing examples. *)
Definition key (k : string) : string :=
  String quote (k ++ String quote EmptyString).

End Json.

(** ** Concrete configurations used by the examples *)

Module Example.

(** The text [{"0": 10, "2": 5}]. *)
Definition explicit_text : string :=
  "{" ++ Json.key "0" ++ ": 10, " ++ Json.key "2" ++ ": 5}".

(** The text [{"0": 10, "timestamp": 5}]: an explicit map that also has
    a member named timestamp. *)
Definition mixed_text : string :=
  "{" ++ Json.key "0" ++ ": 10, " ++ Json.key "timestamp" ++ ": 5}".

(** The text [{"timestamp": 1650611437}]. *)
Definition timestamp_text : string :=
  "{" ++ Json.key "timestamp" ++ ": 1650611437}".

(** The sidecar text [{"0": 10, "1": 20}]. *)
Definition saved_text : string :=
  "{" ++ Json.key "0" ++ ": 10, " ++ Json.key "1" ++ ": 20}".

(** A broker with [n] partitions [0 .. n-1] for every topic.  It has a
    message at or after a timestamp [ts] (ms) in partition [p] exactly
    when [found p] holds, at offset [p + 2]. *)
Definition broker (n : nat) (found : Z → bool) : KafkaConsumer :=
  {| partitions_for_topic := λ _, Some (seqZ 0 (Z.of_nat n));
     offsets_for_times := λ _ input_map,
       (λ pt : Z * Z,
          (pt.1, if found pt.1
                 then Some {| offset := pt.1 + 2; timestamp := pt.2 |}
                 else None)) <$> input_map |}.

Definition kafka (info : string) : KafkaConfig :=
  {| topic := "kafka_data_20220408"; offset_info := info |}.

(** A file system holding one sidecar. *)
Definition one_file (path text : string) : string → option string :=
  λ q, if String.eqb q path then Some text else None.

(** An object as the constructor leaves it for a topic of [n]
    partitions with the offsets [d] resolved. *)
Definition input (n : Z) (redundant : bool) (mode : ModeKeys)
    (task_index task_num : Z) (d : gmap Z Z) : KafkaInput :=
  {| chief_redundant := redundant;
     _mode := Some mode;
     _task_index := task_index;
     _task_num := task_num;
     _kafka := Some (kafka "");
     _num_partition := Some n;
     _offset_dict := d;
     _task_offset_dict := ∅ |}.

End Example.

From Stdlib Require Import Sorted.

(** ** More Python text primitives *)

Module PyText.

(** [c in s] for a one-character [c]. *)
Fixpoint mem (c : ascii) (s : string) : bool :=
  match s with
  | EmptyString => false
  | String c' s' => Ascii.eqb c' c || mem c s'
  end.

(** [sep.join(fields)] *)
Fixpoint join (sep : string) (fields : list string) : string :=
  match fields with
  | [] => EmptyString
  | [f] => f
  | f :: rest => f ++ sep ++ join sep rest
  end.

End PyText.

(** ** Decimal rendering of integers *)

Module PyFormat.

Definition digit_char (d : Z) : ascii := ascii_of_nat (48 + Z.to_nat d).

(** The decimal digits of [n ≥ 0] put in front of [acc]; [fuel] bounds
    the number of digits. *)
Fixpoint render_digits (fuel : nat) (n : Z) (acc : string) : string :=
  match fuel with
  | O => acc
  | S fuel' =>
      let acc' := String (digit_char (n mod 10)) acc in
      if n <? 10 then acc' else render_digits fuel' (n / 10) acc'
  end.

Definition render_nat (n : Z) : string :=
  render_digits (S (Z.to_nat (Z.log2 n))) n EmptyString.

(** [str(z)], ['%d' % z] and the key [json.dumps] writes for an [int]
    key [z]: a minus sign for a negative number, then the decimal digits
    without leading zeros. *)
Definition py_str (z : Z) : string :=
  if z <? 0 then String "-" (render_nat (- z)) else render_nat z.

(** ['%s:%d:%d' % (topic, part_id, offset)], line 143: the text of a
    topic entry. *)
Definition topic_text (e : topic_entry) : string :=
  te_topic e ++ ":" ++ py_str (te_part e) ++ ":" ++ py_str (te_offset e).

(** The members [json.loads] reads from the text [json.dumps] writes for
    a dictionary of offsets, up to their order: each key rendered in
    decimal. *)
Definition dumped_members (d : gmap Z Z) : list (string * jvalue) :=
  (λ kv : Z * Z, (py_str kv.1, JInt kv.2)) <$> map_to_list d.

End PyFormat.

(** ** [main.py]: version strings of [export] and the cluster rewrite of
    [_train_and_evaluate_impl] *)

Module Main.

(** [tmp_ckpt_path.split('-')[-1]], line 469: the model version taken
    from a checkpoint path ([None] would be an [IndexError]; a path that
    is [None] itself is outside this model). *)
Definition ckpt_ver (tmp_ckpt_path : string) : option string :=
  last (PyStr.split "-" tmp_ckpt_path).

(** Lines 497-500:
    [export_ts = [x for x in final_export_dir.split('/') if x != ''][-1]];
    [None] stands for the [IndexError] of indexing an empty list. *)
Definition export_ts (final_export_dir : string) : option string :=
  last (filter (λ x, x ≠ EmptyString) (PyStr.split "/" final_export_dir)).

(** The value of a member of [tf_config['task']]: a string such as the
    task type, or anything else (the index). *)
Inductive task_value (X : Type) : Type :=
  | TaskStr (s : string)
  | TaskOther (x : X).
Arguments TaskStr {X} s.
Arguments TaskOther {X} x.

(** The parsed [TF_CONFIG]: a [dict] whose member [cluster], when
    present, is a [dict] from job names to host lists ([H]), whose
    member [task], when present, is a [dict], and which may have other
    members. *)
Record tf_config (H X : Type) : Type := {
  cluster : option (gmap string H);
  task : option (gmap string (task_value X));
  others : gmap string X
}.
Arguments cluster {H X} _.
Arguments task {H X} _.
Arguments others {H X} _.

Definition is_chief_type {X : Type} (v : task_value X) : bool :=
  match v with
  | TaskStr s => String.eqb s "chief"
  | TaskOther _ => false
  end.

(** Lines 254-262: the configuration [os.environ['TF_CONFIG']] is set
    to; when the condition of line 254 fails the environment is left
    alone, which is the configuration itself. *)
Definition rewrite_tf_config {H X : Type} (c : tf_config H X)
  : result (tf_config H X) :=
  match cluster c with
  | None => Ok c
  | Some cl =>
      match cl !! "chief" with
      | None => Ok c
      | Some chief =>
          if bool_decide (is_Some (cl !! "ps"))
             && negb (bool_decide (is_Some (cl !! "evaluator")))
          then
            let cl' := <["master" := chief]> (delete "chief" cl) in
            match task c with
            | None => Raise KeyError
            | Some t =>
                match t !! "type" with
                | None => Raise KeyError
                | Some ty =>
                    let t' := if is_chief_type ty
                              then <["type" := TaskStr "master"]> t else t in
                    Ok {| cluster := Some cl'; task := Some t';
                          others := others c |}
                end
            end
          else Ok c
      end
  end.

End Main.

(** ** [KafkaInput._preprocess] *)

Module Preprocess.
Section WithBase.
Context {T : Type}.

(** [Input.DATA_OFFSET], a constant of the base class. *)
Variable DATA_OFFSET : string.

(** [super(KafkaInput, self)._preprocess(field_dict)], the method of
    the base class, which is not part of these sources: from
    [self._appended_fields] and [field_dict] it gives both back as it
    leaves them, with the dictionary it returns or the exception it
    raises. *)
Variable super_preprocess :
  list string → gmap string T →
  list string * gmap string T * result (gmap string T).

(** [_preprocess(field_dict)] on [self._appended_fields]: the list as
    the call leaves it, and the returned [output_dict]. *)
Definition _preprocess (appended_fields : list string)
    (field_dict : gmap string T) : list string * result (gmap string T) :=
  let '(appended1, field_dict1, r) :=
    super_preprocess appended_fields field_dict in
  match r with
  | Raise e => (appended1, Raise e)
  | Ok output_dict =>
      let output_dict1 :=
        match field_dict1 !! DATA_OFFSET with
        | Some v => <[DATA_OFFSET := v]> output_dict
        | None => output_dict
        end in
      let appended2 :=
        if bool_decide (DATA_OFFSET ∈ appended1) then appended1
        else (appended1 ++ [DATA_OFFSET])%list in
      (appended2, Ok output_dict1)
  end.
End WithBase.
End Preprocess.

(** ** [OdpsRTPInput._parse_table] *)

Module RTP.

(** The exceptions of list indexing: [l[i]] out of range, and
    [l.index(x)] for an [x] that is not in [l] (a [ValueError]). *)
Inductive lookup_error : Type :=
  | IndexError
  | NotInList.

Inductive outcome (A : Type) : Type :=
  | Done (a : A)
  | Fail (e : lookup_error).
Arguments Done {A} a.
Arguments Fail {A} e.

(** [l.index(x)]: the position of the first occurrence. *)
Fixpoint index (x : string) (l : list string) : option nat :=
  match l with
  | [] => None
  | y :: l' => if String.eqb y x then Some O else S <$> index x l'
  end.

(** [[l.index(x) for x in xs]]: raises at the first [x] not in [l]. *)
Fixpoint indexes (l : list string) (xs : list string) : outcome (list nat) :=
  match xs with
  | [] => Done []
  | x :: xs' =>
      match index x l with
      | None => Fail NotInList
      | Some i =>
          match indexes l xs' with
          | Done fids => Done (i :: fids)
          | Fail e => Fail e
          end
      end
  end.

(** [zip(xs, ts, vs)]: as long as the shortest of the three. *)
Fixpoint zip3 {A B C : Type} (xs : list A) (ts : list B) (vs : list C)
  : list (A * B * C) :=
  match xs, ts, vs with
  | x :: xs', t :: ts', v :: vs' => (x, t, v) :: zip3 xs' ts' vs'
  | _, _, _ => []
  end.

Section WithTensors.
Context {T D FT DV : Type}.

(** [self.get_type_defaults(t, v)] of the base class. *)
Variable get_type_defaults : FT → DV → D.

(** [tf.decode_csv(records, record_defaults, field_delim)]: the list
    of column tensors. *)
Variable decode_csv : T → list D → string → list T.

(** The attributes of the input the method reads. *)
Record schema : Type := {
  _input_fields : list string;
  _input_field_types : list FT;
  _input_field_defaults : list DV;
  _label_fields : list string;
  _effective_fields : list string;
  separator : string            (* self._data_config.separator *)
}.

(** [[x for x in self._input_fields if x not in self._label_fields]] *)
Definition field_keys (self : schema) : list string :=
  filter (λ x, x ∉ _label_fields self) (_input_fields self).

(** Lines 40-45. *)
Definition record_defaults (self : schema) : list D :=
  (λ xtv : string * FT * DV, get_type_defaults xtv.1.2 xtv.2) <$>
    filter (λ xtv : string * FT * DV, xtv.1.1 ∉ _label_fields self)
      (zip3 (_input_fields self) (_input_field_types self)
            (_input_field_defaults self)).

(** [{field_keys[x]: fields[x] for x in effective_fids}], from the
    dictionary built so far. *)
Fixpoint feature_inputs (keys : list string) (decoded : list T)
    (fids : list nat) (inputs : gmap string T) : outcome (gmap string T) :=
  match fids with
  | [] => Done inputs
  | x :: fids' =>
      match keys !! x, decoded !! x with
      | Some k, Some v => feature_inputs keys decoded fids' (<[k := v]> inputs)
      | _, _ => Fail IndexError
      end
  end.

(** [for x in range(len(self._label_fields)):
       inputs[self._label_fields[x]] = labels[x]], from position [x]. *)
Fixpoint label_inputs (label_fields : list string) (labels : list T)
    (x : nat) (inputs : gmap string T) : outcome (gmap string T) :=
  match label_fields with
  | [] => Done inputs
  | l :: rest =>
      match labels !! x with
      | Some v => label_inputs rest labels (S x) (<[l := v]> inputs)
      | None => Fail IndexError
      end
  end.

(** [_parse_table], called with the selected columns [fields]. *)
Definition _parse_table (self : schema) (fields : list T)
  : outcome (gmap string T) :=
  let labels := take (length fields - 1) fields in      (* fields[:-1] *)
  match last fields with                                 (* fields[-1] *)
  | None => Fail IndexError
  | Some features =>
      let decoded := decode_csv features (record_defaults self)
                       (separator self) in
      match indexes (field_keys self) (_effective_fields self) with
      | Fail e => Fail e
      | Done effective_fids =>
          match feature_inputs (field_keys self) decoded effective_fids ∅ with
          | Fail e => Fail e
          | Done inputs => label_inputs (_label_fields self) labels O inputs
          end
      end
  end.
End WithTensors.
End RTP.

(** A table with the label column [clk] and a feature column of two
    features, and a decoder that splits the feature column at the
    separator: used by the examples. *)

Module ExampleRTP.

Definition decode_columns (col : string) (defaults : list string)
    (sep : string) : list string :=
  match sep with
  | String c EmptyString => PyStr.split c col
  | _ => [col]
  end.

Definition rtp_schema : @RTP.schema unit string :=
  {| RTP._input_fields := ["clk"; "item_id"; "user_id"];
     RTP._input_field_types := [tt; tt; tt];
     RTP._input_field_defaults := ["0"; ""; ""];
     RTP._label_fields := ["clk"];
     RTP._effective_fields := ["user_id"; "item_id"];
     RTP.separator := "," |}.

End ExampleRTP.


(** * Properties *)

(** ** The tracker *)

Section TrackerFacts.
Import Tracker.

Implicit Types (d : gmap Z Z) (obs : list (Z * Z)) (toks : list string).

Lemma observe_lookup d k v p :
  observe d k v !! p =
    if decide (k = p)
    then Some (match d !! p with None => v | Some c => Z.max c v end)
    else d !! p.
Proof.
  unfold observe. case_decide as Hkp.
  - subst p. destruct (d !! k) as [old|] eqn:Hd.
    + destruct (Z.ltb_spec old v).
      * rewrite lookup_insert_eq. f_equal. lia.
      * rewrite Hd. f_equal. lia.
    + by rewrite lookup_insert_eq.
  - destruct (d !! k) as [old|]; [destruct (old <? v)|];
      by rewrite ?lookup_insert_ne.
Qed.

Lemma high_water_cons p cur k o obs :
  high_water p cur ((k, o) :: obs) =
    high_water p (if bool_decide (k = p)
                  then Some (match cur with None => o | Some c => Z.max c o end)
                  else cur) obs.
Proof. reflexivity. Qed.

Lemma observe_all_cons d k v obs :
  observe_all d ((k, v) :: obs) = observe_all (observe d k v) obs.
Proof. reflexivity. Qed.

Lemma observe_all_lookup obs : ∀ d p,
  observe_all d obs !! p = high_water p (d !! p) obs.
Proof.
  induction obs as [|[k v] obs IH]; intros d p; [done|].
  rewrite observe_all_cons, high_water_cons, IH, observe_lookup.
  case_decide; case_bool_decide; done.
Qed.

Lemma high_water_mono p obs : ∀ cur v,
  cur = Some v → ∃ v', high_water p cur obs = Some v' ∧ v ≤ v'.
Proof.
  induction obs as [|[k o] obs IH]; intros cur v ->; [by exists v|].
  rewrite high_water_cons. case_bool_decide.
  - destruct (IH (Some (Z.max v o)) _ eq_refl) as (v' & -> & ?).
    exists v'. split; [done|lia].
  - by apply IH.
Qed.

(** From nothing, the high-water mark of [p] is the greatest offset
    observed for [p]. *)
Lemma high_water_fresh p obs m :
  high_water p None obs = Some m ↔
    (p, m) ∈ obs ∧ ∀ v, (p, v) ∈ obs → v ≤ m.
Proof.
  assert (Hgen : ∀ obs cur,
    high_water p cur obs = Some m ↔
      ((cur = Some m ∨ (p, m) ∈ obs) ∧
       (∀ c, cur = Some c → c ≤ m) ∧ ∀ v, (p, v) ∈ obs → v ≤ m)).
  { clear obs. induction obs as [|[k o] obs IH]; intros cur.
    - cbn. split.
      + intros ->. split; [by left|]. split; [by intros c [= ->]|].
        intros v Hv. by apply elem_of_nil in Hv.
      + intros ([->|Hm] & _); [done|]. by apply elem_of_nil in Hm.
    - rewrite high_water_cons, IH. case_bool_decide as Hk.
      + subst k. split.
        * intros ([Hc|Hm] & Hle & Hall).
          -- injection Hc as Hc. split; [|split].
             ++ destruct cur as [c|].
                ** destruct (Z.max_spec c o) as [[? Ho]|[? Ho]];
                     rewrite Ho in Hc; subst; [right; left|by left].
                ** subst. right. left.
             ++ intros c ->. specialize (Hle _ eq_refl). lia.
             ++ intros v [[= ->]|Hv]%elem_of_cons; [|by apply Hall].
                specialize (Hle _ eq_refl). destruct cur; lia.
          -- split; [right; by right|]. split.
             ++ intros c ->. specialize (Hle _ eq_refl). lia.
             ++ intros v [[= ->]|Hv]%elem_of_cons; [|by apply Hall].
                specialize (Hle _ eq_refl). destruct cur; lia.
        * intros (Hor & Hle & Hall). split; [|split].
          -- assert (o ≤ m) by (apply Hall; left).
             destruct Hor as [->|[[= ->]|Hm]%elem_of_cons].
             ++ left. f_equal. lia.
             ++ left. f_equal. destruct cur as [c|]; [|done].
                specialize (Hle _ eq_refl). lia.
             ++ by right.
          -- intros c [= <-]. assert (o ≤ m) by (apply Hall; left).
             destruct cur as [c|]; [|done]. specialize (Hle _ eq_refl). lia.
          -- intros v Hv. apply Hall. by right.
      + split.
        * intros (Hor & Hle & Hall). split; [|split; [done|]].
          -- destruct Hor as [?|?]; [by left|right; by right].
          -- intros v [[= ? ?]|Hv]%elem_of_cons; [done|by apply Hall].
        * intros (Hor & Hle & Hall). split; [|split; [done|]].
          -- destruct Hor as [?|[[= ? ?]|?]%elem_of_cons]; [by left|done|by right].
          -- intros v Hv. apply Hall. by right. }
  rewrite Hgen. split.
  - intros ([?|?] & _ & ?); done.
  - intros (? & ?). split; [by right|]. split; [done|done].
Qed.

Lemma parse_loop_decodes toks obs : decodes toks obs → ∀ d,
  parse_loop d toks = (observe_all d obs, Ok tt).
Proof.
  induction 1 as [|t [k v] toks obs Ht _ IH]; intros d; [done|].
  cbn [parse_loop]. rewrite Ht. apply IH.
Qed.

Lemma parse_offset_decodes toks obs d : decodes toks obs →
  _parse_offset d toks = (observe_all d obs, Ok (observe_all d obs)).
Proof.
  intros H. unfold _parse_offset. by rewrite (parse_loop_decodes _ _ H).
Qed.

(** Whatever the tokens are, a call only raises the marks it finds. *)
Lemma parse_loop_mono toks : ∀ d p v,
  d !! p = Some v → ∃ v', (parse_loop d toks).1 !! p = Some v' ∧ v ≤ v'.
Proof.
  induction toks as [|t toks IH]; intros d p v Hd; [by exists v|].
  cbn [parse_loop]. destruct (parse_kv t) as [[k o]|e]; [|by exists v].
  assert (∃ w, observe d k o !! p = Some w ∧ v ≤ w) as (w & Hw & ?).
  { rewrite observe_lookup, Hd. case_decide; eexists; split; eauto; lia. }
  destruct (IH _ _ _ Hw) as (v' & ? & ?). exists v'. split; [done|lia].
Qed.

Lemma parse_offset_state d toks :
  (_parse_offset d toks).1 = (parse_loop d toks).1.
Proof. unfold _parse_offset. by destruct (parse_loop d toks). Qed.

Lemma parse_offset_snapshot d toks d' snap :
  _parse_offset d toks = (d', Ok snap) → snap = d'.
Proof.
  unfold _parse_offset. destruct (parse_loop d toks) as [d1 [[]|e]]; cbn;
    congruence.
Qed.

Lemma parse_kv_raises t e : parse_kv t = Raise e → e = ValueError.
Proof.
  unfold parse_kv, PyStr.py_int.
  repeat (case_match; cbn; try congruence).
Qed.

(** The mark after a run of observations: the greatest of the mark held
    before and the offsets observed for [p]. *)
Lemma high_water_spec p obs : ∀ cur m,
  high_water p cur obs = Some m ↔
    (cur = Some m ∨ (p, m) ∈ obs) ∧
    (∀ c, cur = Some c → c ≤ m) ∧ (∀ v, (p, v) ∈ obs → v ≤ m).
Proof.
  induction obs as [|[k o] obs IH]; intros cur m.
  - cbn. split.
    + intros ->. split; [by left|]. split; [by intros c [= ->]|].
      intros v Hv. by apply elem_of_nil in Hv.
    + intros ([->|Hm] & _); [done|]. by apply elem_of_nil in Hm.
  - rewrite high_water_cons, IH. case_bool_decide as Hk.
    + subst k. split.
      * intros ([Hc|Hm] & Hle & Hall).
        -- injection Hc as Hc. split; [|split].
           ++ destruct cur as [c|].
              ** destruct (Z.max_spec c o) as [[? Ho]|[? Ho]];
                   rewrite Ho in Hc; subst; [right; left|by left].
              ** subst. right. left.
           ++ intros c ->. specialize (Hle _ eq_refl). lia.
           ++ intros v [[= ->]|Hv]%elem_of_cons; [|by apply Hall].
              specialize (Hle _ eq_refl). destruct cur; lia.
        -- split; [right; by right|]. split.
           ++ intros c ->. specialize (Hle _ eq_refl). lia.
           ++ intros v [[= ->]|Hv]%elem_of_cons; [|by apply Hall].
              specialize (Hle _ eq_refl). destruct cur; lia.
      * intros (Hor & Hle & Hall). split; [|split].
        -- assert (o ≤ m) by (apply Hall; left).
           destruct Hor as [->|[[= ->]|Hm]%elem_of_cons].
           ++ left. f_equal. lia.
           ++ left. f_equal. destruct cur as [c|]; [|done].
              specialize (Hle _ eq_refl). lia.
           ++ by right.
        -- intros c [= <-]. assert (o ≤ m) by (apply Hall; left).
           destruct cur as [c|]; [|done]. specialize (Hle _ eq_refl). lia.
        -- intros v Hv. apply Hall. by right.
    + split.
      * intros (Hor & Hle & Hall). split; [|split; [done|]].
        -- destruct Hor as [?|?]; [by left|right; by right].
        -- intros v [[= ? ?]|Hv]%elem_of_cons; [done|by apply Hall].
      * intros (Hor & Hle & Hall). split; [|split; [done|]].
        -- destruct Hor as [?|[[= ? ?]|?]%elem_of_cons]; [by left|done|by right].
        -- intros v Hv. apply Hall. by right.
Qed.

(** Every call of a run, also one made after a call that raised, returns
    a snapshot that is above the dictionary the run started from. *)
Lemma outcomes_above batches : ∀ (d snap : gmap Z Z) (j : nat) p v,
  outcomes d batches !! j = Some (Ok snap) → d !! p = Some v →
  ∃ v', snap !! p = Some v' ∧ v ≤ v'.
Proof.
  induction batches as [|b batches IH]; intros d snap j p v Hj Hd; [done|].
  cbn [outcomes] in Hj.
  destruct (_parse_offset d b) as [d' r] eqn:Hb.
  destruct (parse_loop_mono b d p v Hd) as (w & Hw & Hvw).
  rewrite <- parse_offset_state, Hb in Hw. cbn [fst] in Hw.
  destruct j as [|j]; cbn in Hj.
  - injection Hj as ->.
    pose proof (parse_offset_snapshot _ _ _ _ Hb) as ->. by exists w.
  - destruct (IH _ _ _ _ _ Hj Hw) as (v' & ? & ?).
    exists v'. split; [done|lia].
Qed.

Lemma elem_of_snapshots d batches snap :
  snap ∈ snapshots d batches ↔ ∃ j, outcomes d batches !! j = Some (Ok snap).
Proof.
  unfold snapshots. rewrite list_elem_of_omap. split.
  - intros ([s|e] & Hin & Hs); [|done]. injection Hs as ->.
    by apply list_elem_of_lookup_1 in Hin.
  - intros [j Hj]. exists (Ok snap). split; [|done].
    by apply list_elem_of_lookup_2 in Hj.
Qed.

Lemma snapshots_above batches (d snap : gmap Z Z) p v :
  snap ∈ snapshots d batches → d !! p = Some v →
  ∃ v', snap !! p = Some v' ∧ v ≤ v'.
Proof.
  intros [j Hj]%elem_of_snapshots. by apply (outcomes_above batches d snap j).
Qed.

End TrackerFacts.

Section TrackerClaims.
Import Tracker.

(** C3 (as amended): a token that does not parse as an integer
    [partition:offset] pair is not skipped.  The call raises [ValueError]
    at the first such token: the pairs before it have been applied to the
    dictionary, the tokens after it are never looked at, and no snapshot
    is returned.  A call returns a snapshot exactly when every token of
    the batch parses. *)
Theorem parse_offset_raises_at_malformed_token
    (d : gmap Z Z) (good : list string) (obs : list (Z * Z))
    (bad : string) (rest : list string) (e : exn) :
  decodes good obs →
  parse_kv bad = Raise e →
  _parse_offset d (good ++ bad :: rest) = (observe_all d obs, Raise ValueError)
  ∧ ∀ toks : list string,
      is_ok (_parse_offset d toks).2 = true ↔
      Forall (λ t, is_ok (parse_kv t) = true) toks.
Proof.
  intros Hgood Hbad. split.
  - unfold _parse_offset.
    assert (parse_loop d (good ++ bad :: rest)
            = (observe_all d obs, Raise ValueError)) as ->; [|done].
    revert d. induction Hgood as [|t [k v] toks obs' Ht _ IH]; intros d.
    + cbn. rewrite Hbad. by rewrite (parse_kv_raises _ _ Hbad).
    + cbn [app parse_loop]. rewrite Ht. apply IH.
  - intros toks. rewrite (surjective_pairing (_parse_offset d toks)).
    unfold _parse_offset. revert d.
    induction toks as [|t toks IH]; intros d.
    + cbn. split; [constructor|done].
    + cbn [parse_loop]. destruct (parse_kv t) as [[k v]|e'] eqn:Ht.
      * specialize (IH (observe d k v)).
        destruct (parse_loop (observe d k v) toks) as [d1 r1]. cbn in *.
        rewrite IH. split.
        -- intros H. constructor; [by rewrite Ht|done].
        -- by intros [_ H]%Forall_cons.
      * cbn. split; [done|]. intros [H _]%Forall_cons.
        by rewrite Ht in H.
Qed.

Lemma parse_offset_raises_at_malformed_token_witness :
  decodes ["0:5"] [(0, 5)] ∧
  parse_kv "1" = Raise ValueError ∧
  _parse_offset ∅ ["0:5"; "1"; "2:9"] = ({[0 := 5]}, Raise ValueError).
Proof.
  assert (H1 : decodes ["0:5"] [(0, 5)]) by (repeat constructor).
  assert (H2 : parse_kv "1" = Raise ValueError) by reflexivity.
  split; [exact H1|]. split; [exact H2|].
  exact (proj1 (parse_offset_raises_at_malformed_token
                  ∅ ["0:5"] [(0, 5)] "1" ["2:9"] ValueError H1 H2)).
Defined.

(** C3 as stated fails: the batch ["0:5"; "oops"; "1:7"] makes the call
    raise, so it returns no snapshot, and the well-formed pair after the
    offending token is never recorded. *)
Lemma malformed_token_aborts_the_call :
  let r := _parse_offset ∅ ["0:5"; "oops"; "1:7"] in
  r.2 = Raise ValueError ∧ r.1 !! 1 = None ∧ ¬ ∃ snap, r.2 = Ok snap.
Proof.
  cbv zeta.
  assert (_parse_offset ∅ ["0:5"; "oops"; "1:7"]
          = ({[0 := 5]}, Raise ValueError)) as -> by reflexivity.
  split; [done|]. split; [done|]. by intros [snap ?].
Qed.

(** C4 as stated fails in the pipeline: [_get_topics] seeds the tracker
    with the start offsets before any record is observed.  With start
    offset 10 resolved for partition 0, observing the single pair 0:3
    leaves partition 0 at 10, which is not the greatest offset observed
    for it (3). *)
Lemma seeded_tracker_keeps_start_offset :
  let self := Example.input 4 false TRAIN 0 2 {[0 := 10]} in
  let seeded := _task_offset_dict (Assigner._get_topics self).1 in
  let r := _parse_offset seeded ["0:3"] in
  seeded !! 0 = Some 10 ∧
  decodes ["0:3"] [(0, 3)] ∧
  (∃ snap, r.2 = Ok snap ∧ snap !! 0 = Some 10) ∧
  ¬ (∃ snap, r.2 = Ok snap ∧ snap !! 0 = Some 3).
Proof.
  cbv zeta.
  assert (_parse_offset
            (_task_offset_dict
               (Assigner._get_topics
                  (Example.input 4 false TRAIN 0 2 {[0 := 10]})).1) ["0:3"]
          = (<[2 := 0]> {[0 := 10]}, Ok (<[2 := 0]> {[0 := 10]}))) as ->
    by reflexivity.
  split; [reflexivity|]. split; [repeat constructor|]. split.
  - by eexists.
  - intros (snap & [= <-] & Hs). done.
Qed.

(** C4 (as amended): from whatever dictionary the tracker holds (in the
    pipeline, the start offsets [_get_topics] has seeded), a call on any
    sequence of [(partition, offset)] pairs returns a snapshot that gives
    each partition the greatest of the mark held for it before and the
    offsets observed for it: exactly the greatest offset observed when
    no greater mark was held, the mark held otherwise.  The result does
    not depend on the order of the pairs (the update is a maximum, not an
    overwrite), and no later call ever lowers a mark. *)
Theorem tracker_keeps_maximum
    (d : gmap Z Z) (toks : list string) (obs : list (Z * Z)) :
  decodes toks obs →
  ∃ snap : gmap Z Z,
    _parse_offset d toks = (snap, Ok snap)
    ∧ (∀ p m, snap !! p = Some m ↔
              (d !! p = Some m ∨ (p, m) ∈ obs) ∧
              (∀ c, d !! p = Some c → c ≤ m) ∧
              (∀ v, (p, v) ∈ obs → v ≤ m))
    ∧ (∀ p m, (p, m) ∈ obs → (∀ v, (p, v) ∈ obs → v ≤ m) →
              snap !! p = Some (match d !! p with
                                | Some c => Z.max c m
                                | None => m
                                end))
    ∧ (∀ toks' obs', decodes toks' obs' → obs' ≡ₚ obs →
                     _parse_offset d toks' = (snap, Ok snap))
    ∧ (∀ (more : list string) p v,
         snap !! p = Some v →
         ∃ v', (_parse_offset snap more).1 !! p = Some v' ∧ v ≤ v').
Proof.
  intros Hdec. exists (observe_all d obs).
  assert (Hspec : ∀ obs0 p m, observe_all d obs0 !! p = Some m ↔
            (d !! p = Some m ∨ (p, m) ∈ obs0) ∧
            (∀ c, d !! p = Some c → c ≤ m) ∧
            (∀ v, (p, v) ∈ obs0 → v ≤ m)).
  { intros obs0 p m. by rewrite observe_all_lookup, high_water_spec. }
  split; [by apply parse_offset_decodes|].
  split; [apply Hspec|]. split; [|split].
  - intros p m Hin Hmax. apply Hspec.
    destruct (d !! p) as [c|] eqn:Hd.
    + destruct (Z.max_spec c m) as [[? ->]|[? ->]].
      * split; [by right|]. split; [intros ? [= <-]; lia|done].
      * split; [by left|]. split; [intros ? [= <-]; lia|].
        intros v Hv. specialize (Hmax v Hv). lia.
    + split; [by right|]. split; [done|done].
  - intros toks' obs' Hdec' Hperm.
    rewrite (parse_offset_decodes _ _ _ Hdec').
    assert (observe_all d obs' = observe_all d obs) as ->; [|done].
    apply map_eq. intros p. apply option_eq. intros m.
    rewrite !Hspec. by setoid_rewrite Hperm.
  - intros more p v Hp. rewrite parse_offset_state.
    by apply parse_loop_mono.
Qed.

Lemma tracker_keeps_maximum_witness :
  let seeded : gmap Z Z := <[2 := 0]> {[0 := 10]} in
  decodes ["0:3"; "2:7"; "2:5"] [(0, 3); (2, 7); (2, 5)] ∧
  ∃ snap : gmap Z Z,
    _parse_offset seeded ["0:3"; "2:7"; "2:5"] = (snap, Ok snap) ∧
    snap !! 0 = Some (Z.max 10 3) ∧ snap !! 2 = Some (Z.max 0 7).
Proof.
  cbv zeta.
  assert (H : decodes ["0:3"; "2:7"; "2:5"] [(0, 3); (2, 7); (2, 5)])
    by (repeat constructor).
  split; [exact H|].
  destruct (tracker_keeps_maximum (<[2 := 0]> {[0 := 10]}) _ _ H)
    as (snap & Hrun & _ & Hmax & _).
  exists snap. split; [exact Hrun|]. split.
  - apply (Hmax 0 3); [left|]. intros v Hv.
    repeat (apply elem_of_cons in Hv as [Hv|Hv]; [simplify_eq; lia|]).
    by apply elem_of_nil in Hv.
  - apply (Hmax 2 7); [right; left|]. intros v Hv.
    repeat (apply elem_of_cons in Hv as [Hv|Hv]; [simplify_eq; lia|]).
    by apply elem_of_nil in Hv.
Defined.

End TrackerClaims.

(** ** Partition assignment *)

Section AssignerFacts.
Import Assigner.

Lemma topics_loop_spec kafka od ti tnum parts :
  tnum ≠ 0 → ∀ topics tod,
  topics_loop (Some kafka) od ti tnum parts topics tod =
    (start_offsets od tod (filter (λ p, p mod tnum = ti) parts),
     Ok (topics ++ (entry (topic kafka) od <$>
                      filter (λ p, p mod tnum = ti) parts))%list).
Proof.
  intros Hnum. induction parts as [|p parts IH]; intros topics tod.
  - cbn. by rewrite app_nil_r.
  - cbn [topics_loop]. destruct (Z.eqb_spec tnum 0) as [|_]; [done|].
    destruct (Z.eqb_spec (p mod tnum) ti) as [Hp|Hp].
    + rewrite IH, filter_cons_True by done. cbn [fmap list_fmap].
      by rewrite <- app_assoc.
    + by rewrite IH, filter_cons_False.
Qed.

(** Without [_kafka] the loop cannot add a topic. *)
Lemma topics_loop_no_kafka od ti tnum parts : ∀ topics tod d out,
  topics_loop None od ti tnum parts topics tod = (d, Ok out) → out = topics.
Proof.
  induction parts as [|p parts IH]; intros topics tod d out; cbn.
  - congruence.
  - destruct (tnum =? 0); [congruence|].
    destruct (p mod tnum =? ti); [congruence|]. apply IH.
Qed.

Lemma start_offsets_lookup od parts : ∀ init p,
  start_offsets od init parts !! p =
    if decide (p ∈ parts) then Some (default 0 (od !! p)) else init !! p.
Proof.
  induction parts as [|q parts IH]; intros init p.
  - cbn. case_decide as H; [by apply elem_of_nil in H|done].
  - cbn [start_offsets foldl]. fold (start_offsets od (<[q:=default 0 (od !! q)]> init) parts).
    rewrite IH. destruct (decide (p ∈ parts)) as [Hin|Hin].
    + rewrite decide_True; [done|by right].
    + destruct (decide (p = q)) as [->|Hne].
      * rewrite lookup_insert_eq, decide_True; [done|by left].
      * rewrite lookup_insert_ne, decide_False; [done| |done].
        by intros [?|?]%elem_of_cons.
Qed.

Lemma elem_of_owned ti tnum n p :
  p ∈ owned ti tnum n ↔ (0 ≤ p < n) ∧ p mod tnum = ti.
Proof.
  unfold owned. rewrite list_elem_of_filter, elem_of_seqZ. intuition lia.
Qed.

Lemma NoDup_owned ti tnum n : NoDup (owned ti tnum n).
Proof. apply NoDup_filter, NoDup_seqZ. Qed.

Lemma assigned_entries topic_name od parts :
  assigned (entry topic_name od <$> parts) = parts.
Proof.
  unfold assigned. induction parts as [|p parts IH]; [done|].
  cbn. f_equal. exact IH.
Qed.

(** What [_get_topics] does once the attributes are set and the task
    count is not 0. *)
Lemma get_topics_spec self n kafka ti tnum :
  _num_partition self = Some n → _kafka self = Some kafka →
  effective self = (ti, tnum) → tnum ≠ 0 →
  _get_topics self =
    (set_task_offset_dict self
       (start_offsets (_offset_dict self) ∅ (owned ti tnum n)),
     if decide (owned ti tnum n = []) then Raise AssertionError
     else Ok (entry (topic kafka) (_offset_dict self) <$> owned ti tnum n)).
Proof.
  intros Hn Hk Heff Hnum. unfold _get_topics. rewrite Heff, Hn, Hk.
  rewrite topics_loop_spec by done. cbn [app bind]. fold (owned ti tnum n).
  f_equal. rewrite length_fmap.
  destruct (owned ti tnum n) as [|p l]; [done|].
  rewrite decide_False by done. cbn [length].
  destruct (Z.ltb_spec 0 (Z.of_nat (S (length l)))); [done|lia].
Qed.

Lemma effective_plain self :
  chief_redundant self && is_train (_mode self) = false →
  effective self = (_task_index self, _task_num self).
Proof. unfold effective. by intros ->. Qed.

Lemma effective_redundant self :
  chief_redundant self && is_train (_mode self) = true →
  effective self =
    (Z.max (_task_index self - 1) 0, Z.max (_task_num self - 1) 1).
Proof. unfold effective. by intros ->. Qed.

End AssignerFacts.

Section AssignerClaims.
Import Assigner.

Lemma get_topics_ok_inv self self' topics :
  _get_topics self = (self', Ok topics) →
  ∃ n kafka ti tnum,
    _num_partition self = Some n ∧ _kafka self = Some kafka ∧
    effective self = (ti, tnum) ∧ tnum ≠ 0 ∧
    self' = set_task_offset_dict self
              (start_offsets (_offset_dict self) ∅ (owned ti tnum n)) ∧
    topics = entry (topic kafka) (_offset_dict self) <$> owned ti tnum n ∧
    owned ti tnum n ≠ [].
Proof.
  intros Hrun.
  destruct (_num_partition self) as [n|] eqn:Hn; cycle 1.
  { unfold _get_topics in Hrun. rewrite Hn in Hrun.
    destruct (effective self). congruence. }
  destruct (effective self) as [ti tnum] eqn:Heff.
  destruct (_kafka self) as [kafka|] eqn:Hk; cycle 1.
  { unfold _get_topics in Hrun. rewrite Heff, Hn, Hk in Hrun.
    destruct (topics_loop None (_offset_dict self) ti tnum (seqZ 0 n) [] ∅)
      as [d [out|e]] eqn:Hloop; [|cbn in Hrun; congruence].
    apply topics_loop_no_kafka in Hloop as ->. simpl in Hrun. congruence. }
  destruct (decide (tnum = 0)) as [->|Hnum].
  { unfold _get_topics in Hrun. rewrite Heff, Hn, Hk in Hrun.
    destruct (seqZ 0 n) as [|p l]; simpl in Hrun; congruence. }
  exists n, kafka, ti, tnum.
  rewrite (get_topics_spec _ _ _ _ _ Hn Hk Heff Hnum) in Hrun.
  case_decide; [congruence|]. injection Hrun as <- <-. done.
Qed.

(** The dictionary a successful [_get_topics] leaves behind. *)
Lemma get_topics_seeds self self' topics :
  _get_topics self = (self', Ok topics) →
  (∀ p, p ∈ assigned topics ↔ is_Some (_task_offset_dict self' !! p))
  ∧ (∀ e, e ∈ topics →
          te_offset e = default 0 (_offset_dict self !! te_part e) ∧
          _task_offset_dict self' !! te_part e = Some (te_offset e)).
Proof.
  intros Hrun.
  destruct (get_topics_ok_inv _ _ _ Hrun)
    as (n & kafka & ti & tnum & Hn & Hk & Heff & Hnum & -> & -> & Hne).
  cbn [set_task_offset_dict _task_offset_dict]. split.
  - intros p. rewrite assigned_entries, start_offsets_lookup.
    case_decide; [by split; eauto|].
    rewrite lookup_empty. split; [done|]. by intros [? ?].
  - intros e (p & -> & Hp)%list_elem_of_fmap. cbn. split; [done|].
    by rewrite start_offsets_lookup, decide_True.
Qed.

(** C5: without redundant-leader mode and with
    [1 ≤ task_num ≤ num_partitions], every task of [0 .. task_num-1] gets
    an assignment (so none fails), the assignments together are exactly
    the partitions [0 .. num_partitions-1], and no partition is in the
    assignments of two tasks; with 4 partitions and 2 tasks, task 0 gets
    0 and 2, task 1 gets 1 and 3. *)
Theorem plain_assignment_partitions_the_topic :
  (∀ (self : KafkaInput) (n : Z) (kafka : KafkaConfig),
     _num_partition self = Some n → _kafka self = Some kafka →
     chief_redundant self && is_train (_mode self) = false →
     1 ≤ _task_num self ≤ n →
     let run i := (_get_topics (with_task self i (_task_num self))).2 in
     (∀ i, 0 ≤ i < _task_num self →
           ∃ topics, run i = Ok topics ∧ NoDup (assigned topics))
     ∧ (∀ p, 0 ≤ p < n ↔
             ∃ i topics, 0 ≤ i < _task_num self ∧
                         run i = Ok topics ∧ p ∈ assigned topics)
     ∧ (∀ i j topics_i topics_j p,
           run i = Ok topics_i → run j = Ok topics_j →
           p ∈ assigned topics_i → p ∈ assigned topics_j → i = j))
  ∧ (∃ topics0 topics1,
       (_get_topics (Example.input 4 false TRAIN 0 2 ∅)).2 = Ok topics0 ∧
       (_get_topics (Example.input 4 false TRAIN 1 2 ∅)).2 = Ok topics1 ∧
       assigned topics0 = [0; 2] ∧ assigned topics1 = [1; 3]).
Proof.
  split; [|by eexists _, _].
  intros self n kafka Hn Hk Hplain Hnum run.
  assert (Hrun : ∀ i, run i =
    if decide (owned i (_task_num self) n = []) then Raise AssertionError
    else Ok (entry (topic kafka) (_offset_dict self) <$>
               owned i (_task_num self) n)).
  { intros i. unfold run.
    rewrite (get_topics_spec (with_task self i (_task_num self))
               n kafka i (_task_num self)); [done|done|done| |lia].
    by apply (effective_plain (with_task self i (_task_num self))). }
  assert (Hmem : ∀ i topics p, run i = Ok topics →
            (p ∈ assigned topics ↔ 0 ≤ p < n ∧ p mod _task_num self = i)).
  { intros i topics p. rewrite Hrun. case_decide; [done|].
    intros [= <-]. by rewrite assigned_entries, elem_of_owned. }
  assert (Hok : ∀ i p, 0 ≤ p < n → p mod _task_num self = i →
            ∃ topics, run i = Ok topics ∧ NoDup (assigned topics)).
  { intros i p Hp Hi. rewrite Hrun. rewrite decide_False.
    - eexists. split; [done|]. rewrite assigned_entries. apply NoDup_owned.
    - intros Hnil. assert (p ∈ owned i (_task_num self) n) as Hin
        by by apply elem_of_owned.
      rewrite Hnil in Hin. by apply elem_of_nil in Hin. }
  split; [|split].
  - intros i Hi. apply (Hok i i); [lia|]. apply Z.mod_small. lia.
  - intros p. split.
    + intros Hp. exists (p mod _task_num self).
      destruct (Hok (p mod _task_num self) p Hp eq_refl) as (topics & Ht & _).
      exists topics. split; [apply Z.mod_pos_bound; lia|].
      split; [done|]. by apply (Hmem _ _ _ Ht).
    + intros (i & topics & _ & Ht & Hin).
      apply (Hmem _ _ _ Ht) in Hin. tauto.
  - intros i j ti tj p Hi Hj Hpi Hpj.
    apply (Hmem _ _ _ Hi) in Hpi. apply (Hmem _ _ _ Hj) in Hpj. lia.
Qed.

Lemma plain_assignment_partitions_the_topic_witness :
  let self := Example.input 4 false TRAIN 0 2 ∅ in
  1 ≤ _task_num self ≤ 4 ∧
  ∀ p, 0 ≤ p < 4 ↔
       ∃ i topics, 0 ≤ i < 2 ∧
         (_get_topics (with_task self i 2)).2 = Ok topics ∧
         p ∈ assigned topics.
Proof.
  cbv zeta.
  assert (Hnum : 1 ≤ _task_num (Example.input 4 false TRAIN 0 2 ∅) ≤ 4)
    by (cbn; lia).
  split; [exact Hnum|].
  exact (proj1 (proj2 (proj1 plain_assignment_partitions_the_topic
           (Example.input 4 false TRAIN 0 2 ∅) 4 (Example.kafka "")
           eq_refl eq_refl eq_refl Hnum))).
Defined.

End AssignerClaims.

Section AssignerClaims2.
Import Assigner.

(** What a call leaves in [_task_offset_dict] and what it returns. *)
Local Abbreviation out r := (_task_offset_dict r.1, r.2).

(** C2 as stated fails: with redundant-leader mode on, in training, with
    4 partitions and 3 tasks, task 0 is assigned partitions 0 and 2: its
    assignment is not empty. *)
Lemma redundant_leader_task0_consumes :
  ∃ topics,
    (_get_topics (Example.input 4 true TRAIN 0 3 ∅)).2 = Ok topics ∧
    assigned topics = [0; 2] ∧ assigned topics ≠ [].
Proof. eexists. split; [reflexivity|]. split; [reflexivity|done]. Qed.

(** C2 (as amended): with redundant-leader mode on and in training, the
    assignment computed for task 0 is the one of effective index 0 among
    [max (task_num - 1) 1] tasks: it holds partition 0 whenever the topic
    has a partition, and it is the assignment task 1 gets when there are
    at least two tasks; for every task index [i ≥ 1] (of at least two
    tasks) the assignment is the non-redundant one computed with
    [task_num - 1] tasks and index [i - 1]. *)
Theorem redundant_leader_assignment
    (self : KafkaInput) (n : Z) (kafka : KafkaConfig) :
  _num_partition self = Some n → _kafka self = Some kafka →
  chief_redundant self = true → _mode self = Some TRAIN →
  let red i := _get_topics (with_task self i (_task_num self)) in
  let plain i t := _get_topics (with_redundant (with_task self i t) false) in
  out (red 0) = out (plain 0 (Z.max (_task_num self - 1) 1))
  ∧ (0 < n → ∃ topics, (red 0).2 = Ok topics ∧ 0 ∈ assigned topics)
  ∧ (2 ≤ _task_num self → out (red 0) = out (red 1))
  ∧ (∀ i, 1 ≤ i → 2 ≤ _task_num self →
          out (red i) = out (plain (i - 1) (_task_num self - 1))).
Proof.
  intros Hn Hk Hred Hmode red plain.
  assert (Hr : ∀ i, red i = _ ) by
    (intros i; apply (get_topics_spec (with_task self i (_task_num self))
       n kafka (Z.max (i - 1) 0) (Z.max (_task_num self - 1) 1));
     [done|done| |lia];
     apply (effective_redundant (with_task self i (_task_num self)));
     cbn; by rewrite Hred, Hmode).
  assert (Hp : ∀ i t, t ≠ 0 → plain i t = _) by
    (intros i t Ht;
     by apply (get_topics_spec (with_redundant (with_task self i t) false)
       n kafka i t)).
  split; [|split; [|split]].
  - rewrite Hr, Hp by lia. done.
  - intros Hpos. rewrite Hr. cbn [snd].
    assert (0 ∈ owned (Z.max (0 - 1) 0) (Z.max (_task_num self - 1) 1) n)
      as Hin by (apply elem_of_owned; split; [lia|]; by rewrite Z.mod_0_l by lia).
    rewrite decide_False; [|by intros Hnil; rewrite Hnil in Hin;
                              apply elem_of_nil in Hin].
    eexists. split; [done|]. by rewrite assigned_entries.
  - intros _. by rewrite !Hr.
  - intros i Hi Hnum. rewrite Hr, Hp by lia.
    by replace (Z.max (i - 1) 0) with (i - 1) by lia;
       replace (Z.max (_task_num self - 1) 1) with (_task_num self - 1) by lia.
Qed.

Lemma redundant_leader_assignment_witness :
  let self := Example.input 4 true TRAIN 0 3 ∅ in
  (_num_partition self = Some 4 ∧ chief_redundant self = true) ∧
  out (_get_topics (with_task self 2 3)) =
    out (_get_topics (with_redundant (with_task self (2 - 1) (3 - 1)) false)).
Proof.
  cbv zeta. split; [by split|].
  assert (H1 : 1 ≤ 2) by lia.
  assert (H2 : 2 ≤ _task_num (Example.input 4 true TRAIN 0 3 ∅))
    by (cbn; lia).
  exact (proj2 (proj2 (proj2 (redundant_leader_assignment
           (Example.input 4 true TRAIN 0 3 ∅) 4 (Example.kafka "")
           eq_refl eq_refl eq_refl eq_refl))) 2 H1 H2).
Defined.

(** C8: [_get_topics], the first step of [_build], raises
    [AssertionError] exactly when the loop has assigned no partition to
    the task, and returns the assigned topics otherwise; unless the task
    count is 0, the loop assigns the partitions [p] of
    [0 .. num_partitions-1] with [p mod task_num = task_index]. *)
Theorem empty_assignment_fails_construction
    (self : KafkaInput) (n : Z) (kafka : KafkaConfig) (ti tnum : Z)
    (d : gmap Z Z) (topics : list topic_entry) :
  _num_partition self = Some n → _kafka self = Some kafka →
  effective self = (ti, tnum) →
  topics_loop (Some kafka) (_offset_dict self) ti tnum (seqZ 0 n) [] ∅
    = (d, Ok topics) →
  (topics = [] → (_get_topics self).2 = Raise AssertionError)
  ∧ (topics ≠ [] → (_get_topics self).2 = Ok topics)
  ∧ (tnum ≠ 0 → assigned topics = owned ti tnum n).
Proof.
  intros Hn Hk Heff Hloop.
  assert (Hrun : (_get_topics self).2 =
            if 0 <? Z.of_nat (length topics) then Ok topics
            else Raise AssertionError).
  { unfold _get_topics. by rewrite Heff, Hn, Hk, Hloop. }
  split; [|split].
  - intros ->. by rewrite Hrun.
  - intros Hne. rewrite Hrun. destruct topics; [done|].
    cbn [length]. by destruct (Z.ltb_spec 0 (Z.of_nat (S (length topics)))); [|lia].
  - intros Hnum. rewrite topics_loop_spec in Hloop by done.
    injection Hloop as _ <-. cbn [app]. apply assigned_entries.
Qed.

Lemma empty_assignment_fails_construction_witness :
  let self := Example.input 2 false TRAIN 2 3 ∅ in
  topics_loop (Some (Example.kafka "")) ∅ 2 3 (seqZ 0 2) [] ∅ = (∅, Ok [])
  ∧ (_get_topics self).2 = Raise AssertionError.
Proof.
  cbv zeta.
  assert (H : topics_loop (Some (Example.kafka ""))
                (_offset_dict (Example.input 2 false TRAIN 2 3 ∅))
                2 3 (seqZ 0 2) [] ∅ = (∅, Ok [])) by reflexivity.
  split; [exact H|].
  exact (proj1 (empty_assignment_fails_construction
           (Example.input 2 false TRAIN 2 3 ∅) 2 (Example.kafka "") 2 3 ∅ []
           eq_refl eq_refl eq_refl H) eq_refl).
Defined.

(** C10: when [_get_topics] returns, it has assigned at least one
    partition (those of [0 .. num_partition - 1] that the effective task
    index owns), and [_task_offset_dict] holds exactly the assigned
    partitions, each with its start offset (the resolved offset, 0 when
    none was resolved); hence every snapshot that a call of
    [_parse_offset] returns afterwards, also a call made after one that
    raised, has every assigned partition, with a value at least its start
    offset, whatever was observed. *)
Theorem task_offsets_seeded_with_start_offsets
    (self self' : KafkaInput) (topics : list topic_entry) :
  _get_topics self = (self', Ok topics) →
  topics ≠ []
  ∧ (∃ n, _num_partition self = Some n ∧
          ∀ p, p ∈ assigned topics ↔
               0 ≤ p < n ∧ p mod (effective self).2 = (effective self).1)
  ∧ (∀ p, p ∈ assigned topics ↔ is_Some (_task_offset_dict self' !! p))
  ∧ (∀ e, e ∈ topics →
          te_offset e = default 0 (_offset_dict self !! te_part e) ∧
          _task_offset_dict self' !! te_part e = Some (te_offset e))
  ∧ (∀ batches snap e,
        snap ∈ Tracker.snapshots (_task_offset_dict self') batches →
        e ∈ topics →
        ∃ v, snap !! te_part e = Some v ∧ te_offset e ≤ v).
Proof.
  intros Hrun. destruct (get_topics_seeds _ _ _ Hrun) as [Hdom Hseed].
  destruct (get_topics_ok_inv _ _ _ Hrun)
    as (n & kafka & ti & tnum & Hn & Hk & Heff & Hnum & _ & Htopics & Hne).
  split; [by subst topics; destruct (owned ti tnum n)|].
  split.
  { exists n. split; [done|]. intros p. rewrite Heff. cbn [fst snd].
    by rewrite Htopics, assigned_entries, elem_of_owned. }
  split; [exact Hdom|]. split; [exact Hseed|].
  intros batches snap e Hsnap He.
  destruct (Hseed e He) as [_ Hstart].
  by apply (snapshots_above batches _ _ _ _ Hsnap Hstart).
Qed.

Lemma task_offsets_seeded_with_start_offsets_witness :
  let self := Example.input 4 false TRAIN 0 2 {[0 := 10]} in
  let seeded : gmap Z Z := <[2 := 0]> {[0 := 10]} in
  let e := Assigner.entry "kafka_data_20220408" {[0 := 10]} 0 in
  _get_topics self
    = (set_task_offset_dict self seeded,
       Ok [e; Assigner.entry "kafka_data_20220408" {[0 := 10]} 2]) ∧
  seeded !! 0 = Some 10 ∧
  Tracker.snapshots seeded [["0:3"]; ["2:4"; "oops"]; ["2:1"; "0:12"]]
    = [seeded; <[2 := 4]> {[0 := 12]}] ∧
  ∃ v, (<[2 := 4]> {[0 := 12]} : gmap Z Z) !! te_part e = Some v ∧
       te_offset e ≤ v.
Proof.
  intros self seeded e.
  assert (H : _get_topics self
              = (set_task_offset_dict self seeded,
                 Ok [e; Assigner.entry "kafka_data_20220408" {[0 := 10]} 2]))
    by reflexivity.
  assert (Hsnaps :
    Tracker.snapshots seeded [["0:3"]; ["2:4"; "oops"]; ["2:1"; "0:12"]]
      = [seeded; <[2 := 4]> {[0 := 12]}]) by reflexivity.
  split; [exact H|]. split; [reflexivity|]. split; [exact Hsnaps|].
  apply (proj2 (proj2 (proj2 (proj2
           (task_offsets_seeded_with_start_offsets _ _ _ H))))
           [["0:3"]; ["2:4"; "oops"]; ["2:1"; "0:12"]]).
  - cbn [set_task_offset_dict _task_offset_dict]. rewrite Hsnaps.
    right. left.
  - left.
Defined.

End AssignerClaims2.

(** ** Start-offset resolution and restore *)

Section ResolverFacts.
Import Resolver.

Lemma timestamp_loop_not_found part_offsets p :
  (p, None) ∈ part_offsets → ∀ d,
  timestamp_loop d part_offsets = Raise AttributeError.
Proof.
  induction part_offsets as [|[q [ot|]] rest IH]; intros Hin d.
  - by apply elem_of_nil in Hin.
  - cbn. apply IH. by apply elem_of_cons in Hin as [[= ]|Hin].
  - done.
Qed.

Lemma init_with_kafka json_loads consumer redundant kafka ti tn partitions :
  partitions_for_topic consumer (topic kafka) = Some partitions →
  offsets_of (__init__ json_loads consumer redundant (Some kafka) ti tn)
    = resolve json_loads consumer kafka partitions.
Proof.
  intros Hp. unfold __init__, offsets_of. rewrite Hp.
  by destruct (resolve json_loads consumer kafka partitions).
Qed.

Lemma offsets_of_raise built e : offsets_of built = Raise e → built = Raise e.
Proof. destruct built; cbn; congruence. Qed.

Lemma offsets_of_ok self : offsets_of (Ok self) = Ok (_offset_dict self).
Proof. done. Qed.

Lemma resolve_nonempty json_loads consumer kafka partitions :
  offset_info kafka ≠ "" →
  resolve json_loads consumer kafka partitions =
    do offset_dict <- json_loads (offset_info kafka);
    if PyStr.contains "timestamp" (offset_info kafka)
    then by_timestamp consumer kafka partitions offset_dict
    else explicit offset_dict.
Proof.
  intros Hne. unfold resolve.
  by destruct (String.eqb_spec (offset_info kafka) "").
Qed.

Lemma explicit_loop_unmentioned members : ∀ d d' p,
  explicit_loop d members = Ok d' →
  (∀ ks v, (ks, v) ∈ members → PyStr.py_int ks ≠ Ok p) →
  d' !! p = d !! p.
Proof.
  induction members as [|[ks v] rest IH]; intros d d' p Hrun Hno.
  - cbn in Hrun. congruence.
  - cbn in Hrun. destruct (PyStr.py_int ks) as [k|] eqn:Hks; [|done].
    cbn in Hrun. destruct v as [o|]; [|done].
    rewrite (IH _ _ p Hrun).
    + apply lookup_insert_ne. intros ->. by apply (Hno ks (JInt o)); [left|].
    + intros ks' v' Hin. apply (Hno ks' v'). by right.
Qed.

Lemma explicit_loop_mentioned members : ∀ d d' p o,
  explicit_loop d members = Ok d' → d' !! p = Some o →
  d !! p = Some o ∨ ∃ ks, (ks, JInt o) ∈ members ∧ PyStr.py_int ks = Ok p.
Proof.
  induction members as [|[ks v] rest IH]; intros d d' p o Hrun Hp.
  - cbn in Hrun. left. congruence.
  - cbn in Hrun. destruct (PyStr.py_int ks) as [k|] eqn:Hks; [|done].
    cbn in Hrun. destruct v as [o'|]; [|done].
    destruct (IH _ _ _ _ Hrun Hp) as [Hd|(ks' & Hin & Hk)].
    + destruct (decide (k = p)) as [->|Hne].
      * rewrite lookup_insert_eq in Hd. injection Hd as ->.
        right. exists ks. split; [by left|done].
      * rewrite lookup_insert_ne in Hd by done. by left.
    + right. exists ks'. split; [by right|done].
Qed.

Lemma restore_loop_decodes members obs :
  Checkpoint.decodes members obs → ∀ d,
  Checkpoint.restore_loop d members = (Tracker.observe_all d obs, Ok tt).
Proof.
  induction 1 as [|[ks v] [k o] members obs [Hk Hv] _ IH]; intros d; [done|].
  cbn in Hk, Hv. subst v. cbn [Checkpoint.restore_loop].
  rewrite Hk. apply IH.
Qed.

End ResolverFacts.

Section ResolverClaims.
Import Resolver.

(** C6: in timestamp mode, when the broker's lookup has no offset for
    one of the partitions, the constructor raises ([AttributeError], from
    reading [.offset] of [None]): no object is built and no partition is
    given a default start position. *)
Theorem timestamp_not_found_is_fatal
    (json_loads : string → result json) (consumer : KafkaConsumer)
    (redundant : bool) (kafka : KafkaConfig) (ti tn : Z)
    (partitions : list Z) (members : list (string * jvalue)) (ts p : Z) :
  partitions_for_topic consumer (topic kafka) = Some partitions →
  offset_info kafka ≠ "" →
  PyStr.contains "timestamp" (offset_info kafka) = true →
  json_loads (offset_info kafka) = Ok (JObject members) →
  dict_get members "timestamp" = Some (JInt ts) →
  (p, None) ∈ offsets_for_times consumer (topic kafka)
                ((λ q, (q, ts * 1000)) <$> partitions) →
  __init__ json_loads consumer redundant (Some kafka) ti tn
    = Raise AttributeError.
Proof.
  intros Hparts Hne Hsub Hjson Hts Hnone.
  apply offsets_of_raise.
  rewrite (init_with_kafka _ _ _ _ _ _ _ Hparts), resolve_nonempty by done.
  rewrite Hjson. cbn [bind]. rewrite Hsub. unfold by_timestamp.
  rewrite Hts. by apply (timestamp_loop_not_found _ p).
Qed.

Lemma timestamp_not_found_is_fatal_witness :
  let consumer := Example.broker 4 (λ p, negb (p =? 2)) in
  let kafka := Example.kafka Example.timestamp_text in
  (2, None) ∈ offsets_for_times consumer (topic kafka)
                ((λ q, (q, 1650611437 * 1000)) <$> seqZ 0 4) ∧
  __init__ Json.loads_flat consumer false (Some kafka) 0 1
    = Raise AttributeError.
Proof.
  cbv zeta.
  assert (Hnone :
    (2, None) ∈ offsets_for_times (Example.broker 4 (λ p, negb (p =? 2)))
                  (topic (Example.kafka Example.timestamp_text))
                  ((λ q, (q, 1650611437 * 1000)) <$> seqZ 0 4)).
  { vm_compute. do 2 right. left. }
  split; [exact Hnone|].
  refine (timestamp_not_found_is_fatal Json.loads_flat
            (Example.broker 4 (λ p, negb (p =? 2))) false
            (Example.kafka Example.timestamp_text) 0 1 (seqZ 0 4)
            [("timestamp", JInt 1650611437)] 1650611437 2
            eq_refl _ eq_refl eq_refl eq_refl Hnone).
  discriminate.
Defined.

(** C9: the mode is chosen by whether the text [timestamp] occurs in the
    raw [offset_info]: when it does, the offsets are those of the
    timestamp lookup for the value of the member named timestamp (and
    the constructor raises [KeyError] when the object has no such
    member), whatever other members the object has; the explicit map is
    read only when the text does not occur.  The object
    [{"0": 10, "timestamp": 5}] is resolved by timestamp 5. *)
Theorem mode_chosen_by_substring :
  (∀ (json_loads : string → result json) (consumer : KafkaConsumer)
     (redundant : bool) (kafka : KafkaConfig) (ti tn : Z)
     (partitions : list Z) (j : json),
     partitions_for_topic consumer (topic kafka) = Some partitions →
     offset_info kafka ≠ "" →
     json_loads (offset_info kafka) = Ok j →
     let built := __init__ json_loads consumer redundant (Some kafka) ti tn in
     (PyStr.contains "timestamp" (offset_info kafka) = true →
        offsets_of built = by_timestamp consumer kafka partitions j
        ∧ ∀ members, j = JObject members →
            (∀ ts, dict_get members "timestamp" = Some (JInt ts) →
                   offsets_of built =
                     timestamp_loop ∅
                       (offsets_for_times consumer (topic kafka)
                          ((λ q, (q, ts * 1000)) <$> partitions)))
            ∧ (dict_get members "timestamp" = None →
               built = Raise KeyError))
     ∧ (PyStr.contains "timestamp" (offset_info kafka) = false →
        offsets_of built = explicit j))
  ∧ offsets_of (__init__ Json.loads_flat (Example.broker 4 (λ _, true)) false
                  (Some (Example.kafka Example.mixed_text)) 0 1)
      = timestamp_loop ∅
          (offsets_for_times (Example.broker 4 (λ _, true))
             "kafka_data_20220408" ((λ q, (q, 5 * 1000)) <$> seqZ 0 4)).
Proof.
  split; [|by vm_compute].
  intros json_loads consumer redundant kafka ti tn partitions j
    Hparts Hne Hjson built.
  assert (Hres : offsets_of built =
            if PyStr.contains "timestamp" (offset_info kafka)
            then by_timestamp consumer kafka partitions j
            else explicit j).
  { unfold built.
    rewrite (init_with_kafka _ _ _ _ _ _ _ Hparts), resolve_nonempty by done.
    by rewrite Hjson. }
  split; intros Hsub; rewrite Hsub in Hres; [|done].
  split; [done|]. intros members ->. split.
  - intros ts Hts. rewrite Hres. unfold by_timestamp. by rewrite Hts.
  - intros Hts. apply offsets_of_raise. rewrite Hres.
    unfold by_timestamp. by rewrite Hts.
Qed.

Lemma mode_chosen_by_substring_witness :
  let kafka := Example.kafka Example.mixed_text in
  PyStr.contains "timestamp" (offset_info kafka) = true ∧
  offsets_of (__init__ Json.loads_flat (Example.broker 4 (λ _, true)) false
                (Some kafka) 0 1)
    = by_timestamp (Example.broker 4 (λ _, true)) kafka (seqZ 0 4)
        (JObject [("0", JInt 10); ("timestamp", JInt 5)]).
Proof.
  cbv zeta.
  assert (Hsub : PyStr.contains "timestamp"
                   (offset_info (Example.kafka Example.mixed_text)) = true)
    by reflexivity.
  split; [exact Hsub|].
  refine (proj1 (proj1 (proj1 mode_chosen_by_substring Json.loads_flat
            (Example.broker 4 (λ _, true)) false
            (Example.kafka Example.mixed_text) 0 1 (seqZ 0 4)
            (JObject [("0", JInt 10); ("timestamp", JInt 5)])
            eq_refl _ eq_refl) Hsub)).
  discriminate.
Defined.

(** C7: in explicit-map mode every assigned partition that no key of the
    configured map names starts at offset 0 (and a start offset other
    than the default is one the map gives for that partition); for the
    configuration [{"0": 10, "2": 5}] and the assigned partitions
    0, 1, 2, 3 the start offsets are 0:10, 1:0, 2:5, 3:0. *)
Theorem explicit_map_defaults_to_zero :
  (∀ (json_loads : string → result json) (consumer : KafkaConsumer)
     (redundant : bool) (kafka : KafkaConfig) (ti tn : Z)
     (members : list (string * jvalue)) (mode : ModeKeys)
     (self self' : KafkaInput) (topics : list topic_entry),
     offset_info kafka ≠ "" →
     PyStr.contains "timestamp" (offset_info kafka) = false →
     json_loads (offset_info kafka) = Ok (JObject members) →
     __init__ json_loads consumer redundant (Some kafka) ti tn = Ok self →
     Assigner._get_topics (set_mode self mode) = (self', Ok topics) →
     ∀ e, e ∈ topics →
       _task_offset_dict self' !! te_part e = Some (te_offset e)
       ∧ ((∀ ks v, (ks, v) ∈ members → PyStr.py_int ks ≠ Ok (te_part e)) →
          te_offset e = 0)
       ∧ (te_offset e ≠ 0 →
          ∃ ks, (ks, JInt (te_offset e)) ∈ members ∧
                PyStr.py_int ks = Ok (te_part e)))
  ∧ (∃ self self' topics,
       __init__ Json.loads_flat (Example.broker 4 (λ _, true)) false
         (Some (Example.kafka Example.explicit_text)) 0 1 = Ok self ∧
       Assigner._get_topics (set_mode self TRAIN) = (self', Ok topics) ∧
       Assigner.assigned topics = [0; 1; 2; 3] ∧
       te_offset <$> topics = [10; 0; 5; 0] ∧
       _task_offset_dict self'
         = <[0 := 10]> (<[1 := 0]> (<[2 := 5]> (<[3 := 0]> ∅)))).
Proof.
  split.
  - intros json_loads consumer redundant kafka ti tn members mode
      self self' topics Hne Hsub Hjson Hinit Hrun e He.
    assert (Hexp : explicit_loop ∅ members = Ok (_offset_dict self)).
    { unfold __init__ in Hinit.
      destruct (partitions_for_topic consumer (topic kafka))
        as [partitions|] eqn:Hparts; [|done].
      pose proof (init_with_kafka json_loads consumer redundant kafka ti tn
                    _ Hparts) as Hres.
      unfold __init__ in Hres. rewrite Hparts in Hres.
      rewrite Hinit in Hres. rewrite offsets_of_ok in Hres.
      rewrite resolve_nonempty, Hjson in Hres by done.
      cbn [bind] in Hres. by rewrite Hsub in Hres. }
    destruct (get_topics_seeds _ _ _ Hrun) as [_ Hseed].
    destruct (Hseed e He) as [Hoff Htask]. cbn in Hoff.
    split; [done|]. split.
    + intros Hno.
      rewrite Hoff, (explicit_loop_unmentioned _ _ _ _ Hexp Hno).
      by rewrite lookup_empty.
    + intros Hnz.
      destruct (_offset_dict self !! te_part e) as [o|] eqn:Ho;
        [|by rewrite Hoff in Hnz].
      cbn in Hoff. subst o.
      destruct (explicit_loop_mentioned _ _ _ _ _ Hexp Ho)
        as [Hemp|?]; [by rewrite lookup_empty in Hemp|done].
  - eexists _, _, _. split; [by vm_compute|].
    split; [by vm_compute|]. split; [done|]. split; [done|].
    by vm_compute.
Qed.

End ResolverClaims.

Section ResolverClaims2.
Import Resolver.

Lemma explicit_map_defaults_to_zero_witness :
  let kafka := Example.kafka Example.explicit_text in
  let self :=
    {| chief_redundant := false; _mode := None; _task_index := 0;
       _task_num := 1; _kafka := Some kafka; _num_partition := Some 4;
       _offset_dict := <[0 := 10]> {[2 := 5]}; _task_offset_dict := ∅ |} in
  let e := Assigner.entry "kafka_data_20220408" (_offset_dict self) 1 in
  __init__ Json.loads_flat (Example.broker 4 (λ _, true)) false
    (Some kafka) 0 1 = Ok self ∧
  e ∈ Assigner.entry "kafka_data_20220408" (_offset_dict self) <$> seqZ 0 4 ∧
  ((∀ ks v, (ks, v) ∈ [("0", JInt 10); ("2", JInt 5)] →
            PyStr.py_int ks ≠ Ok (te_part e)) →
   te_offset e = 0).
Proof.
  intros kafka self e.
  assert (Hinit : __init__ Json.loads_flat (Example.broker 4 (λ _, true))
                    false (Some kafka) 0 1 = Ok self) by reflexivity.
  assert (Hrun : Assigner._get_topics (set_mode self TRAIN) =
            ((Assigner._get_topics (set_mode self TRAIN)).1,
             Ok (Assigner.entry "kafka_data_20220408" (_offset_dict self)
                   <$> seqZ 0 4))) by reflexivity.
  assert (He : e ∈ Assigner.entry "kafka_data_20220408" (_offset_dict self)
                     <$> seqZ 0 4) by (right; left).
  split; [exact Hinit|]. split; [exact He|].
  refine (proj1 (proj2 (proj1 explicit_map_defaults_to_zero Json.loads_flat
            (Example.broker 4 (λ _, true)) false kafka 0 1
            [("0", JInt 10); ("2", JInt 5)] TRAIN self _ _
            _ eq_refl eq_refl Hinit Hrun e He))).
  discriminate.
Defined.

(** C1 as stated fails: with offset 50 resolved for partition 0 and the
    sidecar [{"0": 10, "1": 20}], [restore] leaves partition 0 at 10: the
    offset in the in-memory map has been lowered. *)
Lemma restore_lowers_resolved_offset :
  let self := Example.input 3 false TRAIN 0 1 {[0 := 50]} in
  let r := Checkpoint.restore Json.loads_flat
             (Example.one_file "model.ckpt-100.offset" Example.saved_text)
             self (Some "model.ckpt-100") in
  r.2 = Ok tt ∧
  _offset_dict self !! 0 = Some 50 ∧ _offset_dict r.1 !! 0 = Some 10.
Proof. cbv zeta. split; [|split]; by vm_compute. Qed.

(** C1 (as amended): for a checkpoint path whose [.offset] sidecar
    exists and holds an object of integer offsets, [restore] discards the
    in-memory map and replaces it with the persisted offsets, each
    partition getting the greatest offset persisted for it; the maximum
    is taken among the persisted entries only, so what the map held
    before plays no part.  After saving 0:10, 1:20 and restarting with
    0:0, 1:0, 2:0 resolved, the map after restore is 0:10, 1:20 and the
    start offsets of the partitions 0, 1, 2 are 0:10, 1:20, 2:0. *)
Theorem restore_replaces_offsets :
  (∀ (json_loads : string → result json) (gfile : string → option string)
     (self : KafkaInput) (path text : string)
     (members : list (string * jvalue)) (obs : list (Z * Z)),
     gfile (path ++ ".offset") = Some text →
     json_loads text = Ok (JObject members) →
     Checkpoint.decodes members obs →
     let r := Checkpoint.restore json_loads gfile self (Some path) in
     r = (set_offset_dict self (Tracker.observe_all ∅ obs), Ok tt)
     ∧ (∀ p m, _offset_dict r.1 !! p = Some m ↔
               (p, m) ∈ obs ∧ ∀ v, (p, v) ∈ obs → v ≤ m)
     ∧ (∀ other : gmap Z Z,
          _offset_dict
            (Checkpoint.restore json_loads gfile
               (set_offset_dict self other) (Some path)).1
          = _offset_dict r.1))
  ∧ (let self := Example.input 3 false TRAIN 0 1
                   (<[0 := 0]> (<[1 := 0]> {[2 := 0]})) in
     let r := Checkpoint.restore Json.loads_flat
                (Example.one_file "model.ckpt-100.offset" Example.saved_text)
                self (Some "model.ckpt-100") in
     r.2 = Ok tt ∧
     _offset_dict r.1 = <[0 := 10]> {[1 := 20]} ∧
     _task_offset_dict (Assigner._get_topics r.1).1
       = <[0 := 10]> (<[1 := 20]> {[2 := 0]})).
Proof.
  split; [|by vm_compute].
  intros json_loads gfile self path text members obs Hfile Hjson Hdec r.
  assert (Hr : ∀ s, Checkpoint.restore json_loads gfile s (Some path)
                    = (set_offset_dict s (Tracker.observe_all ∅ obs), Ok tt)).
  { intros s. unfold Checkpoint.restore. rewrite Hfile, Hjson.
    by rewrite (restore_loop_decodes _ _ Hdec). }
  split; [apply Hr|]. split.
  - intros p m. unfold r. rewrite Hr. cbn [fst set_offset_dict _offset_dict].
    by rewrite observe_all_lookup, lookup_empty, high_water_fresh.
  - intros other. unfold r. by rewrite !Hr.
Qed.

Lemma restore_replaces_offsets_witness :
  let self := Example.input 3 false TRAIN 0 1 {[0 := 50]} in
  Checkpoint.decodes [("0", JInt 10); ("1", JInt 20)] [(0, 10); (1, 20)] ∧
  Checkpoint.restore Json.loads_flat
    (Example.one_file "model.ckpt-100.offset" Example.saved_text)
    self (Some "model.ckpt-100")
  = (set_offset_dict self (Tracker.observe_all ∅ [(0, 10); (1, 20)]), Ok tt).
Proof.
  cbv zeta.
  assert (Hdec : Checkpoint.decodes [("0", JInt 10); ("1", JInt 20)]
                   [(0, 10); (1, 20)]) by (repeat constructor).
  split; [exact Hdec|].
  exact (proj1 (proj1 restore_replaces_offsets Json.loads_flat
           (Example.one_file "model.ckpt-100.offset" Example.saved_text)
           (Example.input 3 false TRAIN 0 1 {[0 := 50]})
           "model.ckpt-100" Example.saved_text
           [("0", JInt 10); ("1", JInt 20)] [(0, 10); (1, 20)]
           eq_refl eq_refl Hdec)).
Defined.

End ResolverClaims2.

(** * Further properties *)

(** ** Text primitives *)

Section TextFacts.

Lemma append_nil_l (s : string) : "" ++ s = s.
Proof. reflexivity. Qed.

Lemma append_cons c (a b : string) : String c a ++ b = String c (a ++ b).
Proof. reflexivity. Qed.

Lemma split_no_sep sep s : PyText.mem sep s = false → PyStr.split sep s = [s].
Proof.
  induction s as [|c s IH]; [done|]. cbn. intros [Hc Hs]%orb_false_elim.
  rewrite Hc, (IH Hs). done.
Qed.

Lemma split_nonempty sep s : PyStr.split sep s ≠ [].
Proof.
  destruct s as [|c s]; [done|]. cbn.
  destruct (Ascii.eqb c sep); [done|]. by destruct (PyStr.split sep s).
Qed.

(** Splitting distributes over a separator. *)
Lemma split_app sep a b :
  PyStr.split sep (a ++ String sep b)
    = (PyStr.split sep a ++ PyStr.split sep b)%list.
Proof.
  induction a as [|c a IH].
  - rewrite append_nil_l. cbn [PyStr.split app]. by rewrite Ascii.eqb_refl.
  - rewrite append_cons. cbn [PyStr.split]. rewrite IH.
    destruct (Ascii.eqb c sep); [done|].
    pose proof (split_nonempty sep a). by destruct (PyStr.split sep a).
Qed.

(** The fields of a split hold no separator and join back to the text. *)
Lemma split_fields sep s :
  Forall (λ f, PyText.mem sep f = false) (PyStr.split sep s)
  ∧ PyText.join (String sep EmptyString) (PyStr.split sep s) = s.
Proof.
  induction s as [|c s [IHf IHj]]; [by split; [repeat constructor|]|].
  cbn [PyStr.split]. destruct (Ascii.eqb c sep) eqn:Hc.
  - apply Ascii.eqb_eq in Hc as ->. split; [by constructor|].
    pose proof (split_nonempty sep s).
    destruct (PyStr.split sep s) as [|f fs] eqn:Hs; [done|].
    cbn [PyText.join]. cbn. by rewrite <- IHj.
  - pose proof (split_nonempty sep s).
    destruct (PyStr.split sep s) as [|f fs] eqn:Hs; [done|]. split.
    + apply Forall_cons in IHf as [Hf Hfs]. constructor; [|done].
      cbn. by rewrite Hc, Hf.
    + rewrite <- IHj. by destruct fs.
Qed.

End TextFacts.

(** ** The tracker, continued *)

Section TrackerMore.
Import Tracker.

Lemma high_water_bound p obs : ∀ cur m,
  high_water p cur obs = Some m → ∀ v, (p, v) ∈ obs → v ≤ m.
Proof.
  induction obs as [|[k o] obs IH]; intros cur m Hm v Hv.
  - by apply elem_of_nil in Hv.
  - rewrite high_water_cons in Hm.
    apply elem_of_cons in Hv as [[= <- <-]|Hv]; [|by eapply IH].
    rewrite bool_decide_eq_true_2 in Hm by done.
    set (x := match cur with Some c => Z.max c v | None => v end) in Hm.
    destruct (high_water_mono p obs (Some x) x eq_refl) as (m' & Hm' & Hle).
    rewrite Hm in Hm'. injection Hm' as <-. unfold x in Hle.
    destruct cur; lia.
Qed.

Lemma high_water_absorb p obs : ∀ c,
  (∀ v, (p, v) ∈ obs → v ≤ c) → high_water p (Some c) obs = Some c.
Proof.
  induction obs as [|[k o] obs IH]; intros c Hle; [done|].
  rewrite high_water_cons. case_bool_decide as Hk.
  - subst k. assert (o ≤ c) by (apply Hle; left).
    replace (Z.max c o) with c by lia. apply IH. intros v Hv.
    apply Hle. by right.
  - apply IH. intros v Hv. apply Hle. by right.
Qed.

Lemma high_water_is_Some p obs : ∀ cur,
  is_Some (high_water p cur obs) ↔ is_Some cur ∨ ∃ v, (p, v) ∈ obs.
Proof.
  induction obs as [|[k o] obs IH]; intros cur.
  - cbn. split; [by left|]. intros [?|[v Hv]]; [done|].
    by apply elem_of_nil in Hv.
  - rewrite high_water_cons, IH. case_bool_decide as Hk.
    + subst k. split; [|by left; eauto].
      intros _. right. exists o. left.
    + split.
      * intros [?|[v Hv]]; [by left|]. right. exists v. by right.
      * intros [?|[v Hv]]; [by left|].
        apply elem_of_cons in Hv as [[= ? ?]|Hv]; [done|]. right. eauto.
Qed.

Lemma high_water_perm p obs obs' :
  obs ≡ₚ obs' → ∀ cur, high_water p cur obs = high_water p cur obs'.
Proof.
  induction 1 as [|[k o] l l' _ IH|[k1 o1] [k2 o2] l|l1 l2 l3 _ IH1 _ IH2];
    intros cur.
  - done.
  - rewrite !high_water_cons. apply IH.
  - rewrite !high_water_cons. f_equal.
    repeat case_bool_decide; try done. f_equal. destruct cur; lia.
  - by rewrite IH1.
Qed.

Lemma observe_all_app d obs1 obs2 :
  observe_all d (obs1 ++ obs2) = observe_all (observe_all d obs1) obs2.
Proof. apply foldl_app. Qed.

Lemma observe_all_perm obs obs' d :
  obs ≡ₚ obs' → observe_all d obs = observe_all d obs'.
Proof.
  intros Hp. apply map_eq. intros p.
  by rewrite !observe_all_lookup, (high_water_perm p _ _ Hp).
Qed.

Lemma observe_all_twice d obs :
  observe_all (observe_all d obs) obs = observe_all d obs.
Proof.
  apply map_eq. intros p. rewrite !observe_all_lookup.
  destruct (high_water p (d !! p) obs) as [m|] eqn:Hm.
  - apply high_water_absorb. by apply (high_water_bound p obs (d !! p)).
  - destruct (d !! p) as [c|] eqn:Hd; [|done].
    destruct (high_water_mono p obs (Some c) c eq_refl) as (m' & Hm' & _).
    congruence.
Qed.

(** X1: replaying a batch that has already been tracked changes nothing:
    the dictionary stays as it is and the same snapshot is returned. *)
Theorem tracker_replay_is_noop
    (d : gmap Z Z) (toks : list string) (obs : list (Z * Z)) :
  decodes toks obs →
  let d1 := (_parse_offset d toks).1 in
  _parse_offset d1 toks = (d1, Ok d1).
Proof.
  intros Hdec. cbv zeta. rewrite (parse_offset_decodes _ _ d Hdec). cbn [fst].
  rewrite (parse_offset_decodes _ _ _ Hdec). by rewrite observe_all_twice.
Qed.

Lemma tracker_replay_is_noop_witness :
  decodes ["0:5"; "1:7"; "0:3"] [(0, 5); (1, 7); (0, 3)] ∧
  let d1 := (_parse_offset {[0 := 4]} ["0:5"; "1:7"; "0:3"]).1 in
  _parse_offset d1 ["0:5"; "1:7"; "0:3"] = (d1, Ok d1).
Proof.
  assert (H : decodes ["0:5"; "1:7"; "0:3"] [(0, 5); (1, 7); (0, 3)])
    by (repeat constructor).
  split; [exact H|]. exact (tracker_replay_is_noop {[0 := 4]} _ _ H).
Defined.

(** X2: from any dictionary, the outcome of tracking does not depend on
    the order of the observations: two batches can be processed in
    either order, and any rearrangement of the pairs gives the same
    dictionary. *)
Theorem tracker_order_irrelevant
    (d : gmap Z Z) (a b : list string) (oa ob : list (Z * Z)) :
  decodes a oa → decodes b ob →
  (_parse_offset (_parse_offset d a).1 b).1
    = (_parse_offset (_parse_offset d b).1 a).1
  ∧ ∀ toks obs, decodes toks obs → obs ≡ₚ (oa ++ ob)%list →
      (_parse_offset d toks).1 = (_parse_offset (_parse_offset d a).1 b).1.
Proof.
  intros Ha Hb.
  rewrite !(parse_offset_decodes _ _ _ Ha), !(parse_offset_decodes _ _ _ Hb).
  cbn [fst].
  rewrite ?(parse_offset_decodes _ _ _ Ha), ?(parse_offset_decodes _ _ _ Hb).
  cbn [fst]. rewrite <- !observe_all_app. split.
  - apply observe_all_perm, Permutation_app_comm.
  - intros toks obs Hdec Hperm. rewrite (parse_offset_decodes _ _ _ Hdec).
    cbn [fst]. by apply observe_all_perm.
Qed.

Lemma tracker_order_irrelevant_witness :
  decodes ["0:5"; "1:7"] [(0, 5); (1, 7)] ∧ decodes ["0:9"] [(0, 9)] ∧
  (_parse_offset (_parse_offset {[0 := 6]} ["0:5"; "1:7"]).1 ["0:9"]).1
    = (_parse_offset (_parse_offset {[0 := 6]} ["0:9"]).1 ["0:5"; "1:7"]).1.
Proof.
  assert (Ha : decodes ["0:5"; "1:7"] [(0, 5); (1, 7)]) by (repeat constructor).
  assert (Hb : decodes ["0:9"] [(0, 9)]) by (repeat constructor).
  split; [exact Ha|]. split; [exact Hb|].
  exact (proj1 (tracker_order_irrelevant {[0 := 6]} _ _ _ _ Ha Hb)).
Defined.

(** X3: a call never drops a partition from the dictionary and adds
    exactly the partitions it observes. *)
Theorem tracker_keys
    (d : gmap Z Z) (toks : list string) (obs : list (Z * Z)) :
  decodes toks obs →
  ∀ p, is_Some ((_parse_offset d toks).1 !! p) ↔
       is_Some (d !! p) ∨ ∃ v, (p, v) ∈ obs.
Proof.
  intros Hdec p. rewrite (parse_offset_decodes _ _ _ Hdec). cbn [fst].
  rewrite observe_all_lookup. apply high_water_is_Some.
Qed.

Lemma tracker_keys_witness :
  decodes ["3:1"] [(3, 1)] ∧
  (is_Some ((_parse_offset {[0 := 6]} ["3:1"]).1 !! 3) ↔
   is_Some (({[0 := 6]} : gmap Z Z) !! 3) ∨ ∃ v, (3, v) ∈ [(3, 1)]).
Proof.
  assert (H : decodes ["3:1"] [(3, 1)]) by (repeat constructor).
  split; [exact H|]. exact (tracker_keys {[0 := 6]} _ _ H 3).
Defined.

(** X4: a token is accepted exactly when it is two integer literals
    around a single colon: a token with no colon, or with more than one
    (such as a topic-prefixed [topic:partition:offset]), is rejected. *)
Theorem parse_kv_accepts (t : string) (k v : Z) :
  parse_kv t = Ok (k, v) ↔
  ∃ ks vs, t = ks ++ ":" ++ vs ∧
           PyText.mem ":" ks = false ∧ PyText.mem ":" vs = false ∧
           PyStr.py_int ks = Ok k ∧ PyStr.py_int vs = Ok v.
Proof.
  split.
  - unfold parse_kv. destruct (split_fields ":" t) as [Hf Hj].
    destruct (PyStr.split ":" t) as [|ks [|vs [|? ?]]]; try done.
    intros Hkv. exists ks, vs.
    apply Forall_cons in Hf as [Hks [Hvs _]%Forall_cons].
    destruct (PyStr.py_int ks) as [k'|]; [|done].
    destruct (PyStr.py_int vs) as [v'|]; [|done]. cbn in Hkv.
    injection Hkv as <- <-. by rewrite <- Hj.
  - intros (ks & vs & -> & Hks & Hvs & Hk & Hv). unfold parse_kv.
    change (ks ++ ":" ++ vs) with (ks ++ String ":" vs).
    rewrite split_app, !split_no_sep by done. cbn. by rewrite Hk, Hv.
Qed.

Lemma parse_kv_accepts_witness :
  "0:5" = "0" ++ ":" ++ "5" ∧ parse_kv "0:5" = Ok (0, 5).
Proof.
  split; [reflexivity|].
  apply (proj2 (parse_kv_accepts "0:5" 0 5)).
  exists "0", "5". repeat split; reflexivity.
Defined.

End TrackerMore.

(** ** Rendering and reading integers *)

Section FormatFacts.
Import PyFormat.

Lemma digit_char_spec d : 0 ≤ d < 10 →
  PyStr.is_digit (digit_char d) = true ∧ PyStr.digit_val (digit_char d) = d.
Proof.
  intros Hd.
  assert (d = 0 ∨ d = 1 ∨ d = 2 ∨ d = 3 ∨ d = 4 ∨ d = 5 ∨ d = 6 ∨ d = 7
          ∨ d = 8 ∨ d = 9) as Hcases by lia.
  repeat (destruct Hcases as [->|Hcases]; [by split|]). subst. by split.
Qed.

Lemma pow2_S (fuel : nat) : 2 ^ Z.of_nat (S fuel) = 2 * 2 ^ Z.of_nat fuel.
Proof. rewrite Nat2Z.inj_succ, Z.pow_succ_r; lia. Qed.

(** Reading back what [render_digits] wrote. *)
Lemma digits_render fuel : ∀ n acc,
  0 ≤ n < 2 ^ Z.of_nat fuel →
  PyStr.digits false 0 (render_digits fuel n acc) = PyStr.digits false n acc.
Proof.
  induction fuel as [|fuel IH]; intros n acc Hn.
  - cbn in Hn. assert (n = 0) as -> by lia. done.
  - rewrite pow2_S in Hn. cbn [render_digits].
    destruct (digit_char_spec (n mod 10)) as [Hdig Hval];
      [apply Z.mod_pos_bound; lia|].
    destruct (Z.ltb_spec n 10) as [Hlt|Hge].
    + cbn [PyStr.digits]. rewrite Hdig, Hval.
      by rewrite Z.mod_small by lia.
    + rewrite IH.
      * cbn [PyStr.digits]. rewrite Hdig, Hval. f_equal.
        pose proof (Z.div_mod n 10). lia.
      * split; [apply Z.div_pos; lia|].
        apply Z.div_lt_upper_bound; lia.
Qed.

Lemma render_digits_head fuel : ∀ n acc,
  0 ≤ n < 2 ^ Z.of_nat fuel → fuel ≠ O →
  ∃ c s, render_digits fuel n acc = String c s ∧ PyStr.is_digit c = true.
Proof.
  induction fuel as [|fuel IH]; intros n acc Hn Hf; [done|].
  rewrite pow2_S in Hn. cbn [render_digits].
  destruct (Z.ltb_spec n 10) as [Hlt|Hge].
  - eexists _, _. split; [done|]. by apply digit_char_spec, Z.mod_pos_bound.
  - apply IH.
    + split; [apply Z.div_pos; lia|]. apply Z.div_lt_upper_bound; lia.
    + intros ->. cbn in Hn. lia.
Qed.

Lemma render_digits_chars fuel : ∀ n acc,
  0 ≤ n →
  Forall (λ c, PyStr.is_digit c = true) (list_ascii_of_string acc) →
  Forall (λ c, PyStr.is_digit c = true)
    (list_ascii_of_string (render_digits fuel n acc)).
Proof.
  induction fuel as [|fuel IH]; intros n acc Hn Hacc; [done|].
  cbn [render_digits].
  assert (Forall (λ c, PyStr.is_digit c = true)
            (list_ascii_of_string (String (digit_char (n mod 10)) acc))).
  { cbn. constructor; [|done]. by apply digit_char_spec, Z.mod_pos_bound. }
  destruct (n <? 10); [done|]. apply IH; [|done]. apply Z.div_pos; lia.
Qed.

Lemma log2_fuel n : 0 ≤ n → 0 ≤ n < 2 ^ Z.of_nat (S (Z.to_nat (Z.log2 n))).
Proof.
  intros Hn. split; [done|].
  rewrite Nat2Z.inj_succ, Z2Nat.id by apply Z.log2_nonneg.
  destruct (decide (n = 0)) as [->|]; [done|]. apply Z.log2_spec. lia.
Qed.

Lemma digit_not_space c : PyStr.is_digit c = true → PyStr.is_space c = false.
Proof.
  unfold PyStr.is_digit, PyStr.is_space.
  intros [H1 H2]%andb_prop. apply Nat.leb_le in H1, H2.
  apply orb_false_intro; [apply andb_false_intro2|];
    [apply Nat.leb_gt|apply Nat.eqb_neq]; lia.
Qed.

Lemma lstrip_id c s : PyStr.is_space c = false →
  PyStr.lstrip (String c s) = String c s.
Proof. intros H. cbn. by rewrite H. Qed.

Lemma rstrip_id s :
  Forall (λ c, PyStr.is_space c = false) (list_ascii_of_string s) →
  PyStr.rstrip s = s.
Proof.
  induction s as [|c s IH]; [done|]. cbn.
  intros [Hc Hs]%Forall_cons. rewrite (IH Hs), Hc. by destruct s.
Qed.

Lemma strip_id s :
  Forall (λ c, PyStr.is_space c = false) (list_ascii_of_string s) →
  PyStr.strip s = s.
Proof.
  intros H. unfold PyStr.strip. rewrite (rstrip_id _ H).
  destruct s as [|c s]; [done|]. apply lstrip_id.
  by apply Forall_cons in H as [? _].
Qed.

Lemma digit_not_sign c : PyStr.is_digit c = true → c ≠ "-"%char ∧ c ≠ "+"%char.
Proof. intros H. split; intros ->; discriminate. Qed.

Lemma py_int_unsigned c s :
  PyStr.is_digit c = true →
  Forall (λ c, PyStr.is_space c = false) (list_ascii_of_string (String c s)) →
  PyStr.py_int (String c s) =
    match PyStr.unsigned_literal (String c s) with
    | Some z => Ok z
    | None => Raise ValueError
    end.
Proof.
  intros Hc Hs. unfold PyStr.py_int. rewrite (strip_id _ Hs).
  destruct (digit_not_sign c Hc) as [Hm Hp].
  destruct c as [[] [] [] [] [] [] [] []]; try done.
Qed.

Lemma py_int_negative s :
  Forall (λ c, PyStr.is_space c = false) (list_ascii_of_string s) →
  PyStr.py_int (String "-" s) =
    match PyStr.unsigned_literal s with
    | Some z => Ok (- z)
    | None => Raise ValueError
    end.
Proof.
  intros Hs. unfold PyStr.py_int. rewrite strip_id.
  - by destruct (PyStr.unsigned_literal s).
  - cbn. by constructor.
Qed.

Lemma unsigned_render n : 0 ≤ n →
  PyStr.unsigned_literal (render_nat n) = Some n
  ∧ Forall (λ c, PyStr.is_digit c = true) (list_ascii_of_string (render_nat n))
  ∧ ∃ c s, render_nat n = String c s ∧ PyStr.is_digit c = true.
Proof.
  intros Hn. unfold render_nat.
  pose proof (log2_fuel n Hn) as Hfuel.
  destruct (render_digits_head _ n "" Hfuel) as (c & s & Hr & Hc); [done|].
  split; [|split; [by apply render_digits_chars|by eauto]].
  pose proof (digits_render _ n "" Hfuel) as Hd. rewrite Hr in Hd |- *.
  cbn [PyStr.digits] in Hd. rewrite Hc in Hd. cbn [PyStr.unsigned_literal].
  rewrite Hc. by rewrite Z.mul_0_r, Z.add_0_l in Hd.
Qed.

Lemma digits_no_space s :
  Forall (λ c, PyStr.is_digit c = true) (list_ascii_of_string s) →
  Forall (λ c, PyStr.is_space c = false) (list_ascii_of_string s).
Proof.
  intros H. eapply Forall_impl; [exact H|]. apply digit_not_space.
Qed.

(** [int] reads back every integer from its decimal rendering. *)
Lemma py_int_py_str (z : Z) : PyStr.py_int (py_str z) = Ok z.
Proof.
  unfold py_str. destruct (Z.ltb_spec z 0) as [Hneg|Hpos].
  - destruct (unsigned_render (- z)) as (Hu & Hchars & _); [lia|].
    rewrite py_int_negative, Hu by by apply digits_no_space.
    f_equal. lia.
  - destruct (unsigned_render z Hpos) as (Hu & Hchars & c & s & Hr & Hc).
    rewrite Hr in Hu, Hchars |- *.
    rewrite py_int_unsigned, Hu; [done|done|by apply digits_no_space].
Qed.

End FormatFacts.

Section RoundTrips.
Import PyFormat.

Lemma digits_no_colon s :
  Forall (λ c, PyStr.is_digit c = true) (list_ascii_of_string s) →
  PyText.mem ":" s = false.
Proof.
  induction s as [|c s IH]; [done|]. cbn. intros [Hc Hs]%Forall_cons.
  rewrite (IH Hs), orb_false_r.
  destruct (Ascii.eqb_spec c ":") as [->|]; [discriminate|done].
Qed.

Lemma py_str_no_colon z : PyText.mem ":" (py_str z) = false.
Proof.
  unfold py_str. destruct (Z.ltb_spec z 0).
  - destruct (unsigned_render (- z)) as (_ & Hchars & _); [lia|].
    cbn. by apply digits_no_colon.
  - destruct (unsigned_render z) as (_ & Hchars & _); [lia|].
    by apply digits_no_colon.
Qed.

Lemma dumped_members_decode (l : list (Z * Z)) :
  Checkpoint.decodes ((λ kv : Z * Z, (py_str kv.1, JInt kv.2)) <$> l) l.
Proof.
  induction l as [|[k v] l IH]; [constructor|].
  constructor; [|exact IH]. split; [apply py_int_py_str|done].
Qed.

Lemma observe_all_of_items (d : gmap Z Z) (l : list (Z * Z)) :
  l ≡ₚ map_to_list d → Tracker.observe_all ∅ l = d.
Proof.
  intros Hperm. apply map_eq. intros p. apply option_eq. intros m.
  rewrite observe_all_lookup, lookup_empty, high_water_fresh.
  setoid_rewrite Hperm. setoid_rewrite elem_of_map_to_list. split.
  - by intros [? _].
  - intros Hm. split; [done|]. intros v Hv. rewrite Hm in Hv.
    injection Hv as ->. lia.
Qed.

(** X5: restoring from a sidecar that holds the dump of a dictionary of
    offsets (each key rendered in decimal, the members in any order)
    makes [_offset_dict] exactly that dictionary. *)
Theorem restore_reads_back_snapshot
    (json_loads : string → result json) (gfile : string → option string)
    (self : KafkaInput) (path text : string) (d : gmap Z Z)
    (members : list (string * jvalue)) :
  gfile (path ++ ".offset") = Some text →
  json_loads text = Ok (JObject members) →
  members ≡ₚ dumped_members d →
  Checkpoint.restore json_loads gfile self (Some path)
    = (set_offset_dict self d, Ok tt).
Proof.
  intros Hfile Hjson Hperm.
  apply Permutation_map_inv in Hperm as (l & -> & Hl).
  unfold Checkpoint.restore. rewrite Hfile, Hjson.
  rewrite (restore_loop_decodes _ l (dumped_members_decode l)).
  rewrite (observe_all_of_items d l); [done|by symmetry].
Qed.

Lemma restore_reads_back_snapshot_witness :
  let d : gmap Z Z := <[1 := 20]> {[0 := 10]} in
  [("0", JInt 10); ("1", JInt 20)] ≡ₚ dumped_members d ∧
  Checkpoint.restore Json.loads_flat
    (Example.one_file "model.ckpt-100.offset" Example.saved_text)
    (Example.input 3 false TRAIN 0 1 {[0 := 50]}) (Some "model.ckpt-100")
  = (set_offset_dict (Example.input 3 false TRAIN 0 1 {[0 := 50]}) d, Ok tt).
Proof.
  cbv zeta.
  assert (Hperm : [("0", JInt 10); ("1", JInt 20)]
                    ≡ₚ dumped_members (<[1 := 20]> {[0 := 10]})).
  { vm_compute. apply perm_swap. }
  split; [exact Hperm|].
  exact (restore_reads_back_snapshot Json.loads_flat
           (Example.one_file "model.ckpt-100.offset" Example.saved_text)
           (Example.input 3 false TRAIN 0 1 {[0 := 50]})
           "model.ckpt-100" Example.saved_text (<[1 := 20]> {[0 := 10]})
           [("0", JInt 10); ("1", JInt 20)] eq_refl eq_refl Hperm).
Defined.

(** X6: when the topic name holds no colon, the text written for a topic
    entry splits at its colons into exactly the topic, the partition and
    the offset, and [int] reads the partition and the offset back. *)
Theorem topic_text_reads_back (e : topic_entry) :
  PyText.mem ":" (te_topic e) = false →
  ∃ ps os,
    PyStr.split ":" (topic_text e) = [te_topic e; ps; os] ∧
    PyStr.py_int ps = Ok (te_part e) ∧ PyStr.py_int os = Ok (te_offset e).
Proof.
  intros Htopic. exists (py_str (te_part e)), (py_str (te_offset e)).
  split; [|split; apply py_int_py_str]. unfold topic_text.
  change (te_topic e ++ ":" ++ py_str (te_part e) ++ ":" ++ py_str (te_offset e))
    with (te_topic e ++ String ":" (py_str (te_part e)
                                      ++ String ":" (py_str (te_offset e)))).
  rewrite !split_app, !split_no_sep; [done|apply py_str_no_colon..|done].
Qed.

Lemma topic_text_reads_back_witness :
  let e := Assigner.entry "kafka_data_20220408" {[2 := 5]} 2 in
  PyText.mem ":" (te_topic e) = false ∧
  ∃ ps os,
    PyStr.split ":" (topic_text e) = [te_topic e; ps; os] ∧
    PyStr.py_int ps = Ok 2 ∧ PyStr.py_int os = Ok 5.
Proof.
  cbv zeta.
  assert (H : PyText.mem ":"
                (te_topic (Assigner.entry "kafka_data_20220408" {[2 := 5]} 2))
              = false) by reflexivity.
  split; [exact H|]. exact (topic_text_reads_back _ H).
Defined.

End RoundTrips.

(** ** Restore, continued *)

Section RestoreMore.

Lemma restore_loop_stops good : ∀ obs bad v rest d,
  Checkpoint.decodes good obs →
  PyStr.py_int bad = Raise ValueError →
  Checkpoint.restore_loop d (good ++ (bad, v) :: rest)
    = (Tracker.observe_all d obs, Raise ValueError).
Proof.
  intros obs bad v rest d Hdec Hbad. revert d.
  induction Hdec as [|[ks w] [k o] good obs [Hk Hw] _ IH]; intros d.
  - cbn. by rewrite Hbad.
  - cbn in Hk, Hw. subst w. cbn [app Checkpoint.restore_loop].
    rewrite Hk. apply IH.
Qed.

(** X7: [restore] is not atomic.  When a key of the sidecar object is
    not an integer literal the call raises [ValueError], and
    [_offset_dict] is left holding only the persisted entries that come
    before that key: the offsets resolved earlier are already gone. *)
Theorem restore_fails_midway
    (json_loads : string → result json) (gfile : string → option string)
    (self : KafkaInput) (path text : string)
    (good : list (string * jvalue)) (obs : list (Z * Z))
    (bad : string) (v : jvalue) (rest : list (string * jvalue)) :
  gfile (path ++ ".offset") = Some text →
  json_loads text = Ok (JObject (good ++ (bad, v) :: rest)) →
  Checkpoint.decodes good obs →
  PyStr.py_int bad = Raise ValueError →
  Checkpoint.restore json_loads gfile self (Some path)
    = (set_offset_dict self (Tracker.observe_all ∅ obs), Raise ValueError).
Proof.
  intros Hfile Hjson Hdec Hbad. unfold Checkpoint.restore.
  rewrite Hfile, Hjson. by rewrite (restore_loop_stops good obs).
Qed.

Lemma restore_fails_midway_witness :
  let text := "{" ++ Json.key "1" ++ ": 20, " ++ Json.key "p0" ++ ": 10}" in
  let self := Example.input 3 false TRAIN 0 1 {[0 := 50]} in
  Checkpoint.decodes [("1", JInt 20)] [(1, 20)] ∧
  PyStr.py_int "p0" = Raise ValueError ∧
  Checkpoint.restore Json.loads_flat (Example.one_file "m.offset" text)
    self (Some "m")
  = (set_offset_dict self {[1 := 20]}, Raise ValueError).
Proof.
  cbv zeta.
  assert (Hdec : Checkpoint.decodes [("1", JInt 20)] [(1, 20)])
    by (repeat constructor).
  assert (Hbad : PyStr.py_int "p0" = Raise ValueError) by reflexivity.
  split; [exact Hdec|]. split; [exact Hbad|].
  exact (restore_fails_midway Json.loads_flat
           (Example.one_file "m.offset"
              ("{" ++ Json.key "1" ++ ": 20, " ++ Json.key "p0" ++ ": 10}"))
           (Example.input 3 false TRAIN 0 1 {[0 := 50]}) "m" _
           [("1", JInt 20)] [(1, 20)] "p0" (JInt 10) []
           eq_refl eq_refl Hdec Hbad).
Defined.

Lemma set_offset_dict_same self : set_offset_dict self (_offset_dict self) = self.
Proof. by destruct self. Qed.

(** X8: [restore] touches no attribute other than [_offset_dict], and it
    leaves the object exactly as it was, without raising, when it is
    given no checkpoint path or the path has no [.offset] sidecar; when
    the sidecar text is not JSON the error is raised with the object
    still unchanged. *)
Theorem restore_frame
    (json_loads : string → result json) (gfile : string → option string)
    (self : KafkaInput) (checkpoint_path : option string) :
  let r := Checkpoint.restore json_loads gfile self checkpoint_path in
  r.1 = set_offset_dict self (_offset_dict r.1)
  ∧ (checkpoint_path = None → r = (self, Ok tt))
  ∧ (∀ path, checkpoint_path = Some path →
       (gfile (path ++ ".offset") = None → r = (self, Ok tt))
       ∧ (∀ text e, gfile (path ++ ".offset") = Some text →
                    json_loads text = Raise e → r = (self, Raise e))).
Proof.
  cbv zeta. split; [|split].
  - unfold Checkpoint.restore.
    destruct checkpoint_path as [path|];
      [|by rewrite set_offset_dict_same].
    destruct (gfile (path ++ ".offset")) as [text|];
      [|by rewrite set_offset_dict_same].
    destruct (json_loads text) as [[members|]|e]; cbn;
      [|done|by rewrite set_offset_dict_same].
    by destruct (Checkpoint.restore_loop ∅ members).
  - by intros ->.
  - intros path ->. cbn. split.
    + by intros ->.
    + intros text e -> ->. done.
Qed.

Lemma restore_frame_witness :
  let self := Example.input 3 false TRAIN 0 1 {[0 := 50]} in
  Checkpoint.restore Json.loads_flat (λ _, None) self (Some "model.ckpt-0")
    = (self, Ok tt).
Proof.
  cbv zeta.
  exact (proj1 (proj2 (proj2 (restore_frame Json.loads_flat (λ _, None)
           (Example.input 3 false TRAIN 0 1 {[0 := 50]})
           (Some "model.ckpt-0"))) "model.ckpt-0" eq_refl) eq_refl).
Defined.

End RestoreMore.

(** ** Partition assignment, continued *)

Section AssignerMore.
Import Assigner.

Lemma owned_nil_iff ti tnum n :
  1 ≤ tnum → owned ti tnum n = [] ↔ ¬ (0 ≤ ti < tnum ∧ ti < n).
Proof.
  intros Hnum. split.
  - intros Hnil [Hti Hn].
    assert (ti ∈ owned ti tnum n) as Hin.
    { apply elem_of_owned. split; [lia|]. apply Z.mod_small. lia. }
    rewrite Hnil in Hin. by apply elem_of_nil in Hin.
  - intros Hno. destruct (owned ti tnum n) as [|p l] eqn:Ho; [done|].
    exfalso. apply Hno.
    assert (p ∈ owned ti tnum n) as [Hp Hmod]%elem_of_owned
      by (rewrite Ho; left).
    pose proof (Z.mod_pos_bound p tnum ltac:(lia)).
    pose proof (Z.mod_le p tnum ltac:(lia) ltac:(lia)). lia.
Qed.

(** X9: with an effective task count of at least 1, [_get_topics]
    returns topics exactly when the effective task index [i] satisfies
    [0 ≤ i < task_num] and [i < num_partition]; in every other case (an
    index out of range, or more tasks than partitions) it raises
    [AssertionError]. *)
Theorem get_topics_succeeds_iff
    (self : KafkaInput) (n : Z) (kafka : KafkaConfig) (ti tnum : Z) :
  _num_partition self = Some n → _kafka self = Some kafka →
  effective self = (ti, tnum) → 1 ≤ tnum →
  ((∃ topics, (_get_topics self).2 = Ok topics) ↔ 0 ≤ ti < tnum ∧ ti < n)
  ∧ ((_get_topics self).2 = Raise AssertionError ↔
     ¬ (0 ≤ ti < tnum ∧ ti < n)).
Proof.
  intros Hn Hk Heff Hnum.
  rewrite (get_topics_spec _ _ _ _ _ Hn Hk Heff) by lia. cbn [snd].
  pose proof (owned_nil_iff ti tnum n Hnum) as Hnil.
  case_decide as Ho.
  - split; split.
    + by intros [? ?].
    + intros Hc. by apply Hnil in Ho.
    + intros _. by apply Hnil.
    + done.
  - split; split.
    + intros _. destruct (decide (0 ≤ ti < tnum ∧ ti < n)) as [|Hno]; [done|].
      by apply Hnil in Hno.
    + by eauto.
    + done.
    + intros Hno. by apply Hnil in Hno.
Qed.

Lemma get_topics_succeeds_iff_witness :
  let self := Example.input 2 false TRAIN 2 3 ∅ in
  1 ≤ 3 ∧
  ((_get_topics self).2 = Raise AssertionError ↔ ¬ (0 ≤ 2 < 3 ∧ 2 < 2)).
Proof.
  cbv zeta. assert (H : 1 ≤ 3) by lia. split; [exact H|].
  exact (proj2 (get_topics_succeeds_iff (Example.input 2 false TRAIN 2 3 ∅)
                  2 (Example.kafka "") 2 3 eq_refl eq_refl eq_refl H)).
Defined.

Lemma topics_loop_no_zero_division kafka od ti tnum parts :
  tnum ≠ 0 → ∀ topics tod,
  (topics_loop kafka od ti tnum parts topics tod).2 ≠ Raise ZeroDivisionError.
Proof.
  intros Hnum. induction parts as [|p parts IH]; intros topics tod; [done|].
  cbn [topics_loop]. destruct (Z.eqb_spec tnum 0); [done|].
  destruct (p mod tnum =? ti); [|apply IH].
  destruct kafka; [apply IH|done].
Qed.

(** X10: [_get_topics] raises [ZeroDivisionError] exactly when the
    effective task count is 0 and the topic has a partition; in
    redundant-leader training mode the count is clamped to at least 1,
    so the error cannot occur there whatever [task_num] is. *)
Theorem get_topics_zero_division (self : KafkaInput) (n : Z) :
  _num_partition self = Some n →
  ((_get_topics self).2 = Raise ZeroDivisionError ↔
   (effective self).2 = 0 ∧ 0 < n)
  ∧ (chief_redundant self && is_train (_mode self) = true →
     (_get_topics self).2 ≠ Raise ZeroDivisionError).
Proof.
  intros Hn.
  assert (Hrun : ∀ ti tnum, effective self = (ti, tnum) →
    (_get_topics self).2 =
      (do topics <- (topics_loop (_kafka self) (_offset_dict self) ti tnum
                       (seqZ 0 n) [] ∅).2;
       if 0 <? Z.of_nat (length topics) then Ok topics
       else Raise AssertionError)).
  { intros ti tnum Heff. unfold _get_topics. rewrite Heff, Hn.
    by destruct (topics_loop _ _ _ _ _ _ _). }
  assert (Hiff : (_get_topics self).2 = Raise ZeroDivisionError ↔
                 (effective self).2 = 0 ∧ 0 < n).
  { destruct (effective self) as [ti tnum] eqn:Heff. cbn [snd].
    rewrite (Hrun _ _ eq_refl). destruct (decide (tnum = 0)) as [->|Hnum].
    - destruct (decide (0 < n)) as [Hpos|Hneg].
      + rewrite seqZ_cons by done. cbn. tauto.
      + rewrite seqZ_nil by lia. cbn. split; [done|lia].
    - pose proof (topics_loop_no_zero_division (_kafka self)
                    (_offset_dict self) ti tnum (seqZ 0 n) Hnum [] ∅) as Hno.
      destruct (topics_loop _ _ _ _ _ _ _) as [d [topics|e]]; cbn in *.
      + split; [by destruct (0 <? Z.of_nat (length topics))|tauto].
      + split; [congruence|tauto]. }
  split; [exact Hiff|]. intros Hred. rewrite Hiff.
  rewrite (effective_redundant _ Hred). cbn [snd]. lia.
Qed.

Lemma get_topics_zero_division_witness :
  let self := Example.input 2 false TRAIN 0 0 ∅ in
  _num_partition self = Some 2 ∧
  (_get_topics self).2 = Raise ZeroDivisionError.
Proof.
  cbv zeta. split; [reflexivity|].
  apply (proj1 (get_topics_zero_division
                  (Example.input 2 false TRAIN 0 0 ∅) 2 eq_refl)).
  split; [reflexivity|lia].
Defined.

Lemma set_task_offset_dict_twice self d d' :
  set_task_offset_dict (set_task_offset_dict self d) d'
    = set_task_offset_dict self d'.
Proof. done. Qed.

(** X11: [_get_topics] starts from an empty [_task_offset_dict]: what it
    returns and what it leaves behind do not depend on the marks tracked
    so far (building the dataset again throws them away), and calling it
    a second time changes nothing. *)
Theorem get_topics_resets_tracker (self : KafkaInput) (d : gmap Z Z) :
  _get_topics (set_task_offset_dict self d) = _get_topics self
  ∧ _get_topics (_get_topics self).1 = _get_topics self.
Proof.
  assert (H : ∀ s d0, _get_topics (set_task_offset_dict s d0) = _get_topics s).
  { intros s d0. unfold _get_topics. cbn.
    destruct (effective s) as [ti tnum] eqn:Heff.
    replace (effective (set_task_offset_dict s d0)) with (ti, tnum)
      by by rewrite <- Heff.
    destruct (_num_partition s); [|done].
    by destruct (topics_loop _ _ _ _ _ _ _). }
  split; [apply H|].
  assert (Hst : (_get_topics self).1
                = set_task_offset_dict self (_task_offset_dict (_get_topics self).1)).
  { unfold _get_topics. destruct (effective self).
    destruct (_num_partition self); [|done].
    by destruct (topics_loop _ _ _ _ _ _ _). }
  rewrite Hst. apply H.
Qed.

End AssignerMore.

Section AssignerSizes.
Import Assigner.

Lemma owned_length (n : nat) ti tnum :
  1 ≤ tnum → 0 ≤ ti < tnum →
  Z.of_nat (length (owned ti tnum (Z.of_nat n)))
    = Z.of_nat n / tnum + (if ti <? Z.of_nat n mod tnum then 1 else 0).
Proof.
  intros Hnum Hti. induction n as [|n IH].
  - unfold owned. rewrite seqZ_nil by done. cbn.
    rewrite Z.div_0_l, Z.mod_0_l by lia.
    destruct (Z.ltb_spec ti 0); lia.
  - unfold owned in *. rewrite seqZ_S, filter_app, length_app, Nat2Z.inj_add, IH.
    clear IH. rewrite Z.add_0_l, Nat2Z.inj_succ.
    set (N := Z.of_nat n). assert (0 ≤ N) by lia.
    pose proof (Z.div_mod N tnum ltac:(lia)) as Hdm.
    pose proof (Z.mod_pos_bound N tnum ltac:(lia)) as Hr.
    set (q := N / tnum) in *. set (r := N mod tnum) in *.
    assert (length (filter (λ p, p mod tnum = ti) [N])
            = if decide (r = ti) then 1%nat else 0%nat) as ->.
    { rewrite filter_cons. fold r. by case_decide. }
    destruct (decide (r + 1 < tnum)) as [Hlt|Hge].
    + rewrite <- (Z.div_unique (Z.succ N) tnum q (r + 1)) by lia.
      rewrite <- (Z.mod_unique (Z.succ N) tnum q (r + 1)) by lia.
      case_decide; destruct (Z.ltb_spec ti r), (Z.ltb_spec ti (r + 1)); lia.
    + rewrite <- (Z.div_unique (Z.succ N) tnum (q + 1) 0) by lia.
      rewrite <- (Z.mod_unique (Z.succ N) tnum (q + 1) 0) by lia.
      case_decide; destruct (Z.ltb_spec ti r), (Z.ltb_spec ti 0); lia.
Qed.

(** X12: the partitions are spread evenly.  With an effective task
    count [t ≥ 1], a task that gets topics gets [n / t] of the [n]
    partitions, plus one when its effective index is below [n mod t]; so
    two tasks never differ by more than one partition. *)
Theorem assignment_size
    (self self' : KafkaInput) (topics : list topic_entry) (ti tnum : Z) :
  _get_topics self = (self', Ok topics) →
  effective self = (ti, tnum) → 1 ≤ tnum →
  ∃ n, _num_partition self = Some n ∧
       Z.of_nat (length topics)
         = n / tnum + (if ti <? n mod tnum then 1 else 0) ∧
       n / tnum ≤ Z.of_nat (length topics) ≤ n / tnum + 1.
Proof.
  intros Hrun Heff Hnum.
  destruct (get_topics_ok_inv _ _ _ Hrun)
    as (n & kafka & ti' & tnum' & Hn & Hk & Heff' & _ & _ & -> & Hne).
  rewrite Heff in Heff'. injection Heff' as <- <-.
  exists n. split; [done|].
  assert (0 ≤ ti < tnum ∧ ti < n) as [Hti Hlt].
  { destruct (decide (0 ≤ ti < tnum ∧ ti < n)) as [|Hno]; [done|].
    by apply (owned_nil_iff ti tnum n Hnum) in Hno. }
  rewrite length_fmap.
  replace n with (Z.of_nat (Z.to_nat n)) by lia.
  rewrite (owned_length _ ti tnum Hnum Hti).
  split; [done|]. destruct (ti <? _); lia.
Qed.

Lemma assignment_size_witness :
  let self := Example.input 5 false TRAIN 1 3 ∅ in
  1 ≤ 3 ∧
  ∃ topics, (_get_topics self).2 = Ok topics ∧
            Z.of_nat (length topics) = 5 / 3 + (if 1 <? 5 mod 3 then 1 else 0).
Proof.
  cbv zeta. assert (Hnum : 1 ≤ 3) by lia. split; [exact Hnum|].
  assert (Hrun : _get_topics (Example.input 5 false TRAIN 1 3 ∅)
            = ((_get_topics (Example.input 5 false TRAIN 1 3 ∅)).1,
               Ok (entry "kafka_data_20220408" ∅ <$> [1; 4])))
    by reflexivity.
  destruct (assignment_size _ _ _ 1 3 Hrun eq_refl Hnum)
    as (n & Hn & Hlen & _).
  injection Hn as <-. eexists. split; [exact (f_equal snd Hrun)|exact Hlen].
Defined.

Lemma StronglySorted_seqZ m n : StronglySorted Z.lt (seqZ m n).
Proof.
  destruct (decide (0 ≤ n)) as [Hn|Hn]; [|rewrite seqZ_nil by lia; constructor].
  replace n with (Z.of_nat (Z.to_nat n)) by lia. clear Hn.
  generalize (Z.to_nat n). clear n. intros n. revert m.
  induction n as [|n IH]; intros m.
  - rewrite seqZ_nil by done. constructor.
  - rewrite seqZ_cons by lia. constructor.
    + replace (Z.pred (Z.of_nat (S n))) with (Z.of_nat n) by lia. apply IH.
    + apply Forall_forall. intros x Hx%elem_of_seqZ. lia.
Qed.

Lemma StronglySorted_filter_lt (P : Z → Prop) `{∀ x, Decision (P x)} l :
  StronglySorted Z.lt l → StronglySorted Z.lt (filter P l).
Proof.
  induction 1 as [|x l Hs IH Hx]; [constructor|].
  rewrite filter_cons. case_decide; [|done]. constructor; [done|].
  apply Forall_forall. intros y [_ Hy]%list_elem_of_filter.
  by apply (proj1 (Forall_forall _ _) Hx).
Qed.

(** X13: the topics [_get_topics] returns are in strictly increasing
    order of partition (so no partition is listed twice), every one
    names the configured topic, and every partition lies in
    [0 .. num_partition - 1], whatever partitions [_offset_dict] has
    offsets for. *)
Theorem topics_ascending_in_range
    (self self' : KafkaInput) (topics : list topic_entry) :
  _get_topics self = (self', Ok topics) →
  StronglySorted Z.lt (assigned topics)
  ∧ ∃ kafka n, _kafka self = Some kafka ∧ _num_partition self = Some n ∧
      Forall (λ e, te_topic e = topic kafka ∧ 0 ≤ te_part e < n) topics.
Proof.
  intros Hrun.
  destruct (get_topics_ok_inv _ _ _ Hrun)
    as (n & kafka & ti & tnum & Hn & Hk & Heff & _ & _ & -> & Hne).
  rewrite assigned_entries. split.
  - apply StronglySorted_filter_lt, StronglySorted_seqZ.
  - exists kafka, n. split; [done|]. split; [done|].
    apply Forall_forall. intros e (p & -> & Hp)%list_elem_of_fmap.
    cbn. split; [done|]. by apply elem_of_owned in Hp as [? _].
Qed.

Lemma topics_ascending_in_range_witness :
  let self := Example.input 4 false TRAIN 1 2 {[7 := 3]} in
  ∃ topics, (_get_topics self).2 = Ok topics ∧
            StronglySorted Z.lt (assigned topics).
Proof.
  cbv zeta.
  assert (Hrun : _get_topics (Example.input 4 false TRAIN 1 2 {[7 := 3]})
            = ((_get_topics (Example.input 4 false TRAIN 1 2 {[7 := 3]})).1,
               Ok (entry "kafka_data_20220408" {[7 := 3]} <$> [1; 3])))
    by reflexivity.
  eexists. split; [exact (f_equal snd Hrun)|].
  exact (proj1 (topics_ascending_in_range _ _ _ Hrun)).
Defined.

End AssignerSizes.

(** ** Start-offset resolution, continued *)

Section ResolverMore.
Import Resolver.

Lemma init_ok_offsets json_loads consumer redundant kafka ti tn self partitions :
  partitions_for_topic consumer (topic kafka) = Some partitions →
  __init__ json_loads consumer redundant (Some kafka) ti tn = Ok self →
  resolve json_loads consumer kafka partitions = Ok (_offset_dict self)
  ∧ _num_partition self = Some (Z.of_nat (length partitions))
  ∧ _kafka self = Some kafka ∧ _task_offset_dict self = ∅.
Proof.
  intros Hparts Hinit. unfold __init__ in Hinit. rewrite Hparts in Hinit.
  destruct (resolve json_loads consumer kafka partitions) as [d|e]; [|done].
  cbn in Hinit. by injection Hinit as <-.
Qed.

(** X14: with an empty [offset_info] the constructor resolves nothing
    ([json.loads] and the timestamp lookup play no part), records the
    number of partitions the broker lists, and every partition then
    assigned starts at offset 0. *)
Theorem default_mode_starts_at_zero
    (json_loads : string → result json) (consumer : KafkaConsumer)
    (redundant : bool) (kafka : KafkaConfig) (ti tn : Z)
    (partitions : list Z) :
  partitions_for_topic consumer (topic kafka) = Some partitions →
  offset_info kafka = "" →
  ∃ self,
    __init__ json_loads consumer redundant (Some kafka) ti tn = Ok self
    ∧ _offset_dict self = ∅
    ∧ _num_partition self = Some (Z.of_nat (length partitions))
    ∧ ∀ mode self' topics,
        Assigner._get_topics (set_mode self mode) = (self', Ok topics) →
        Forall (λ e, te_offset e = 0) topics.
Proof.
  intros Hparts Hinfo. unfold __init__. rewrite Hparts.
  unfold resolve. rewrite Hinfo. cbn [String.eqb bind].
  eexists. split; [done|]. cbn. split; [done|]. split; [done|].
  intros mode self' topics Hrun. apply Forall_forall. intros e He.
  destruct (get_topics_seeds _ _ _ Hrun) as [_ Hseed].
  destruct (Hseed e He) as [-> _]. cbn. by rewrite lookup_empty.
Qed.

Lemma default_mode_starts_at_zero_witness :
  ∃ self,
    __init__ Json.loads_flat (Example.broker 4 (λ _, true)) false
      (Some (Example.kafka "")) 0 1 = Ok self
    ∧ _offset_dict self = ∅.
Proof.
  destruct (default_mode_starts_at_zero Json.loads_flat
              (Example.broker 4 (λ _, true)) false (Example.kafka "") 0 1
              (seqZ 0 4) eq_refl eq_refl) as (self & Hinit & Hd & _).
  exists self. split; [exact Hinit|exact Hd].
Defined.

Lemma timestamp_loop_found (found : list (Z * OffsetAndTimestamp)) : ∀ d,
  timestamp_loop d ((λ po : Z * OffsetAndTimestamp, (po.1, Some po.2)) <$> found)
    = Ok (foldl (λ acc po, <[po.1 := offset po.2]> acc) d found).
Proof.
  induction found as [|[p ot] found IH]; intros d; [done|]. cbn. apply IH.
Qed.

Lemma foldl_insert_offsets (found : list (Z * OffsetAndTimestamp)) :
  NoDup (found.*1) → ∀ (d : gmap Z Z) p o,
  foldl (λ acc po, <[po.1 := offset po.2]> acc) d found !! p = Some o ↔
    (∃ ot, (p, ot) ∈ found ∧ offset ot = o) ∨ (¬ (p ∈ found.*1) ∧ d !! p = Some o).
Proof.
  induction found as [|[q ot] found IH]; intros Hnd d p o.
  - cbn. split.
    + intros Hd. right. split; [|done]. by intros ?%elem_of_nil.
    + intros [(ot & Hin & _)|[_ ?]]; [by apply elem_of_nil in Hin|done].
  - cbn [fmap list_fmap] in Hnd. apply NoDup_cons in Hnd as [Hq Hnd].
    cbn [foldl]. rewrite (IH Hnd). cbn [fst snd]. split.
    + intros [(ot' & Hin & Ho)|[Hp Hd]].
      * left. exists ot'. split; [by right|done].
      * destruct (decide (q = p)) as [->|Hne].
        -- rewrite lookup_insert_eq in Hd. injection Hd as <-.
           left. exists ot. split; [by left|done].
        -- rewrite lookup_insert_ne in Hd by done. right. split; [|done].
           cbn. by intros [?|?]%elem_of_cons.
    + intros [(ot' & Hin & Ho)|[Hp Hd]].
      * apply elem_of_cons in Hin as [[= -> ->]|Hin].
        -- right. split; [done|]. by rewrite lookup_insert_eq, Ho.
        -- left. eauto.
      * right. cbn in Hp. split.
        -- intros Hin. apply Hp. by right.
        -- rewrite lookup_insert_ne; [done|]. intros ->. apply Hp. by left.
Qed.

(** X15: in timestamp mode, when the broker has an offset for every
    partition it answers for (each partition once), the constructor
    succeeds, having asked for the configured timestamp in
    milliseconds, and [_offset_dict] holds exactly the offsets the
    broker reported. *)
Theorem timestamp_mode_stores_reported_offsets
    (json_loads : string → result json) (consumer : KafkaConsumer)
    (redundant : bool) (kafka : KafkaConfig) (ti tn : Z)
    (partitions : list Z) (members : list (string * jvalue)) (ts : Z)
    (found : list (Z * OffsetAndTimestamp)) :
  partitions_for_topic consumer (topic kafka) = Some partitions →
  offset_info kafka ≠ "" →
  PyStr.contains "timestamp" (offset_info kafka) = true →
  json_loads (offset_info kafka) = Ok (JObject members) →
  dict_get members "timestamp" = Some (JInt ts) →
  offsets_for_times consumer (topic kafka)
    ((λ q, (q, ts * 1000)) <$> partitions)
    = (λ po : Z * OffsetAndTimestamp, (po.1, Some po.2)) <$> found →
  NoDup (found.*1) →
  ∃ self,
    __init__ json_loads consumer redundant (Some kafka) ti tn = Ok self ∧
    ∀ p o, _offset_dict self !! p = Some o ↔
           ∃ ot, (p, ot) ∈ found ∧ offset ot = o.
Proof.
  intros Hparts Hne Hsub Hjson Hts Hresp Hnd.
  assert (Hres : resolve json_loads consumer kafka partitions
            = Ok (foldl (λ acc po, <[po.1 := offset po.2]> acc) ∅ found)).
  { rewrite resolve_nonempty, Hjson by done. cbn [bind]. rewrite Hsub.
    unfold by_timestamp. rewrite Hts, Hresp. apply timestamp_loop_found. }
  unfold __init__. rewrite Hparts, Hres. cbn [bind].
  eexists. split; [done|]. intros p o. cbn [_offset_dict].
  rewrite (foldl_insert_offsets found Hnd). rewrite lookup_empty.
  split; [by intros [?|[_ ?]]|by left].
Qed.

Lemma timestamp_mode_stores_reported_offsets_witness :
  let found := (λ p, (p, {| offset := p + 2; timestamp := 1650611437000 |}))
                 <$> seqZ 0 4 in
  NoDup (found.*1) ∧
  ∃ self,
    __init__ Json.loads_flat (Example.broker 4 (λ _, true)) false
      (Some (Example.kafka Example.timestamp_text)) 0 1 = Ok self ∧
    ∀ p o, _offset_dict self !! p = Some o ↔
           ∃ ot, (p, ot) ∈ found ∧ offset ot = o.
Proof.
  cbv zeta.
  set (found := (λ p, (p, {| offset := p + 2; timestamp := 1650611437000 |}))
                  <$> seqZ 0 4).
  assert (Hnd : NoDup (found.*1)).
  { assert (found.*1 = seqZ 0 4) as -> by reflexivity. apply NoDup_seqZ. }
  split; [exact Hnd|].
  assert (Hresp :
    offsets_for_times (Example.broker 4 (λ _, true))
      (topic (Example.kafka Example.timestamp_text))
      ((λ q, (q, 1650611437 * 1000)) <$> seqZ 0 4)
    = (λ po : Z * OffsetAndTimestamp, (po.1, Some po.2)) <$> found)
    by reflexivity.
  refine (timestamp_mode_stores_reported_offsets Json.loads_flat
            (Example.broker 4 (λ _, true)) false
            (Example.kafka Example.timestamp_text) 0 1 (seqZ 0 4)
            [("timestamp", JInt 1650611437)] 1650611437 found
            eq_refl _ eq_refl eq_refl eq_refl Hresp Hnd).
  discriminate.
Defined.

Lemma explicit_loop_app a b : ∀ d,
  explicit_loop d (a ++ b) = do d1 <- explicit_loop d a; explicit_loop d1 b.
Proof.
  induction a as [|[ks v] a IH]; intros d; [done|]. cbn.
  destruct (PyStr.py_int ks) as [k|]; [|done]. cbn.
  destruct v; [apply IH|done].
Qed.

Lemma init_explicit json_loads consumer redundant kafka ti tn members self :
  offset_info kafka ≠ "" →
  PyStr.contains "timestamp" (offset_info kafka) = false →
  json_loads (offset_info kafka) = Ok (JObject members) →
  __init__ json_loads consumer redundant (Some kafka) ti tn = Ok self →
  explicit_loop ∅ members = Ok (_offset_dict self).
Proof.
  intros Hne Hsub Hjson Hinit.
  destruct (partitions_for_topic consumer (topic kafka))
    as [partitions|] eqn:Hparts;
    [|by unfold __init__ in Hinit; rewrite Hparts in Hinit].
  destruct (init_ok_offsets _ _ _ _ _ _ _ _ Hparts Hinit) as [Hres _].
  rewrite resolve_nonempty, Hjson in Hres by done. cbn [bind] in Hres.
  by rewrite Hsub in Hres.
Qed.

(** X16: in explicit-map mode the last member that names a partition
    sets its offset: unlike [restore], which keeps the greatest
    persisted offset, the constructor lets a later key such as ["00"]
    override an earlier ["0"] even with a smaller offset. *)
Theorem explicit_last_member_wins
    (json_loads : string → result json) (consumer : KafkaConsumer)
    (redundant : bool) (kafka : KafkaConfig) (ti tn : Z)
    (pre post : list (string * jvalue)) (ks : string) (p o : Z)
    (self : KafkaInput) :
  offset_info kafka ≠ "" →
  PyStr.contains "timestamp" (offset_info kafka) = false →
  json_loads (offset_info kafka) = Ok (JObject (pre ++ (ks, JInt o) :: post)) →
  PyStr.py_int ks = Ok p →
  (∀ ks' v, (ks', v) ∈ post → PyStr.py_int ks' ≠ Ok p) →
  __init__ json_loads consumer redundant (Some kafka) ti tn = Ok self →
  _offset_dict self !! p = Some o.
Proof.
  intros Hne Hsub Hjson Hks Hpost Hinit.
  pose proof (init_explicit _ _ _ _ _ _ _ _ Hne Hsub Hjson Hinit) as Hloop.
  rewrite explicit_loop_app in Hloop.
  destruct (explicit_loop ∅ pre) as [d1|] eqn:Hpre; [|done].
  cbn in Hloop. rewrite Hks in Hloop. cbn in Hloop.
  rewrite (explicit_loop_unmentioned _ _ _ _ Hloop Hpost).
  apply lookup_insert_eq.
Qed.

Lemma explicit_last_member_wins_witness :
  let text := "{" ++ Json.key "0" ++ ": 10, " ++ Json.key "00" ++ ": 5}" in
  ∃ self,
    __init__ Json.loads_flat (Example.broker 4 (λ _, true)) false
      (Some (Example.kafka text)) 0 1 = Ok self ∧
    _offset_dict self !! 0 = Some 5.
Proof.
  cbv zeta. eexists. split; [reflexivity|].
  refine (explicit_last_member_wins Json.loads_flat
            (Example.broker 4 (λ _, true)) false
            (Example.kafka ("{" ++ Json.key "0" ++ ": 10, "
                                ++ Json.key "00" ++ ": 5}")) 0 1
            [("0", JInt 10)] [] "00" 0 5 _ _ eq_refl eq_refl eq_refl _
            eq_refl).
  - discriminate.
  - intros ks' v Hin. by apply elem_of_nil in Hin.
Defined.

(** X17: a member of the explicit map whose key is not an integer
    literal makes the constructor raise [ValueError], provided the
    members before it are integer offsets under integer keys. *)
Theorem explicit_bad_key_fails
    (json_loads : string → result json) (consumer : KafkaConsumer)
    (redundant : bool) (kafka : KafkaConfig) (ti tn : Z)
    (partitions : list Z)
    (good : list (string * jvalue)) (obs : list (Z * Z))
    (bad : string) (v : jvalue) (rest : list (string * jvalue)) :
  partitions_for_topic consumer (topic kafka) = Some partitions →
  offset_info kafka ≠ "" →
  PyStr.contains "timestamp" (offset_info kafka) = false →
  json_loads (offset_info kafka) = Ok (JObject (good ++ (bad, v) :: rest)) →
  Checkpoint.decodes good obs →
  PyStr.py_int bad = Raise ValueError →
  __init__ json_loads consumer redundant (Some kafka) ti tn
    = Raise ValueError.
Proof.
  intros Hparts Hne Hsub Hjson Hdec Hbad. apply offsets_of_raise.
  rewrite (init_with_kafka _ _ _ _ _ _ _ Hparts), resolve_nonempty by done.
  rewrite Hjson. cbn [bind]. rewrite Hsub. unfold explicit.
  rewrite explicit_loop_app.
  assert (∀ d, ∃ d1, explicit_loop d good = Ok d1) as Hgood.
  { clear -Hdec. induction Hdec as [|[ks w] [k o] good obs [Hk Hw] _ IH];
      intros d; [by eexists|].
    cbn in Hk, Hw. subst w. cbn. rewrite Hk. cbn. apply IH. }
  destruct (Hgood ∅) as [d1 ->]. cbn. by rewrite Hbad.
Qed.

Lemma explicit_bad_key_fails_witness :
  let text := "{" ++ Json.key "0" ++ ": 10, " ++ Json.key "p1" ++ ": 5}" in
  Checkpoint.decodes [("0", JInt 10)] [(0, 10)] ∧
  PyStr.py_int "p1" = Raise ValueError ∧
  __init__ Json.loads_flat (Example.broker 4 (λ _, true)) false
    (Some (Example.kafka text)) 0 1 = Raise ValueError.
Proof.
  cbv zeta.
  assert (Hdec : Checkpoint.decodes [("0", JInt 10)] [(0, 10)])
    by (repeat constructor).
  assert (Hbad : PyStr.py_int "p1" = Raise ValueError) by reflexivity.
  split; [exact Hdec|]. split; [exact Hbad|].
  refine (explicit_bad_key_fails Json.loads_flat
            (Example.broker 4 (λ _, true)) false
            (Example.kafka ("{" ++ Json.key "0" ++ ": 10, "
                                ++ Json.key "p1" ++ ": 5}")) 0 1
            (seqZ 0 4) [("0", JInt 10)] [(0, 10)] "p1" (JInt 5) []
            eq_refl _ eq_refl eq_refl Hdec Hbad).
  discriminate.
Defined.

(** X18: an input constructed without a kafka configuration is built
    without any broker call, and cannot produce a dataset: [_get_topics],
    the first thing [_build] does, raises [AttributeError] (for the
    missing [_num_partition]) before the check that the configuration
    is set can run. *)
Theorem no_kafka_config_cannot_build
    (json_loads : string → result json) (consumer : KafkaConsumer)
    (redundant : bool) (ti tn : Z) :
  ∃ self,
    __init__ json_loads consumer redundant None ti tn = Ok self ∧
    _offset_dict self = ∅ ∧
    ∀ mode, (Assigner._get_topics (set_mode self mode)).2
            = Raise AttributeError.
Proof.
  eexists. split; [done|]. split; [done|]. intros mode.
  unfold Assigner._get_topics. cbn. by destruct (Assigner.effective _).
Qed.

End ResolverMore.

(** ** [main.py] *)

Section MainFacts.
Import Main.

(** X19: the model version [export] derives from a checkpoint path is
    the text after its last hyphen: for [prefix-version] with no hyphen
    in [version] it is [version], and a path without a hyphen is its own
    version. *)
Theorem ckpt_ver_is_suffix (tmp_ckpt_path : string) :
  (∀ pre v, tmp_ckpt_path = pre ++ "-" ++ v → PyText.mem "-" v = false →
            ckpt_ver tmp_ckpt_path = Some v)
  ∧ (PyText.mem "-" tmp_ckpt_path = false →
     ckpt_ver tmp_ckpt_path = Some tmp_ckpt_path).
Proof.
  unfold ckpt_ver. split.
  - intros pre v -> Hv. change (pre ++ "-" ++ v) with (pre ++ String "-" v).
    by rewrite split_app, (split_no_sep _ _ Hv), last_snoc.
  - intros H. by rewrite (split_no_sep _ _ H).
Qed.

Lemma ckpt_ver_is_suffix_witness :
  "/data/my-model/model.ckpt-100" = "/data/my-model/model.ckpt" ++ "-" ++ "100"
  ∧ ckpt_ver "/data/my-model/model.ckpt-100" = Some "100".
Proof.
  split; [reflexivity|].
  exact (proj1 (ckpt_ver_is_suffix "/data/my-model/model.ckpt-100")
           "/data/my-model/model.ckpt" "100" eq_refl eq_refl).
Defined.

Lemma split_all_empty sep s :
  Forall (λ f, f = "") (PyStr.split sep s) ↔
  Forall (λ c, c = sep) (list_ascii_of_string s).
Proof.
  induction s as [|c s IH]; [by split; repeat constructor|].
  cbn [PyStr.split list_ascii_of_string].
  destruct (Ascii.eqb_spec c sep) as [->|Hne].
  - rewrite !Forall_cons, IH. tauto.
  - pose proof (split_nonempty sep s).
    destruct (PyStr.split sep s) as [|f fs]; [done|]. split.
    + by intros [? _]%Forall_cons.
    + by intros [? _]%Forall_cons.
Qed.

Lemma filter_nonempty_nil (l : list string) :
  filter (λ x : string, x ≠ "") l = [] ↔ Forall (λ f, f = "") l.
Proof.
  induction l as [|f l IH]; [by split; [constructor|]|].
  rewrite filter_cons, Forall_cons. case_decide as Hf.
  - split; [done|]. by intros [? _].
  - rewrite IH. tauto.
Qed.

(** X20: the version stamp [export] writes into the saved model is the
    last non-empty component of the export directory: it is [name] for
    [dir/name] when [name] is non-empty and holds no slash, trailing
    slashes do not change it, and taking it fails (the [IndexError] of
    line 500) exactly when the path is empty or made of slashes only. *)
Theorem export_ts_is_last_component (final_export_dir : string) :
  (∀ dir name, final_export_dir = dir ++ "/" ++ name → name ≠ "" →
               PyText.mem "/" name = false →
               export_ts final_export_dir = Some name)
  ∧ export_ts (final_export_dir ++ "/") = export_ts final_export_dir
  ∧ (export_ts final_export_dir = None ↔
     Forall (λ c, c = "/"%char) (list_ascii_of_string final_export_dir)).
Proof.
  unfold export_ts. split; [|split].
  - intros dir name -> Hne Hname.
    change (dir ++ "/" ++ name) with (dir ++ String "/" name).
    rewrite split_app, (split_no_sep _ _ Hname), filter_app.
    rewrite (filter_cons_True _ name) by done.
    by rewrite filter_nil, last_snoc.
  - change (final_export_dir ++ "/") with (final_export_dir ++ String "/" "").
    rewrite split_app, filter_app. cbn [PyStr.split].
    rewrite filter_cons_False by (by intros H; apply H).
    by rewrite filter_nil, app_nil_r.
  - by rewrite last_None, filter_nonempty_nil, split_all_empty.
Qed.

Lemma export_ts_is_last_component_witness :
  "/export/final/1650611437" = "/export/final" ++ "/" ++ "1650611437" ∧
  export_ts "/export/final/1650611437" = Some "1650611437".
Proof.
  split; [reflexivity|].
  refine (proj1 (export_ts_is_last_component "/export/final/1650611437")
            "/export/final" "1650611437" eq_refl _ eq_refl).
  discriminate.
Defined.

End MainFacts.

Section TFConfigFacts.
Import Main.
Context {H X : Type}.
Implicit Types (c : tf_config H X) (cl : gmap string H).

(** X21: when the cluster has a chief and parameter servers but no
    evaluator, the rewritten [TF_CONFIG] has no [chief] job, has the
    chief's hosts under [master] (replacing any [master] job there
    was), keeps every other job, keeps every member of the task except
    that a [type] of [chief] becomes [master], and keeps the other
    members of the configuration. *)
Theorem rewrite_moves_chief_to_master c c' cl (h : H) :
  cluster c = Some cl → cl !! "chief" = Some h →
  is_Some (cl !! "ps") → cl !! "evaluator" = None →
  rewrite_tf_config c = Ok c' →
  ∃ cl' t t',
    cluster c' = Some cl' ∧ task c = Some t ∧ task c' = Some t' ∧
    cl' !! "chief" = None ∧ cl' !! "master" = Some h ∧
    (∀ j, j ≠ "chief" → j ≠ "master" → cl' !! j = cl !! j) ∧
    (∀ ty, t !! "type" = Some ty →
           t' !! "type" = Some (if is_chief_type ty then TaskStr "master"
                                else ty)) ∧
    (∀ k, k ≠ "type" → t' !! k = t !! k) ∧
    others c' = others c.
Proof.
  intros Hcl Hchief Hps Hev Hrun. unfold rewrite_tf_config in Hrun.
  rewrite Hcl, Hchief in Hrun.
  rewrite (bool_decide_eq_true_2 _ Hps) in Hrun.
  rewrite bool_decide_eq_false_2 in Hrun
    by (rewrite Hev; by intros [? ?]).
  cbn [andb negb] in Hrun.
  destruct (task c) as [t|]; [|done].
  destruct (t !! "type") as [ty|] eqn:Hty0; [|done].
  pose proof Hty0 as Hty.
  injection Hrun as <-. cbn.
  eexists _, t, _.
  split; [done|]. split; [done|]. split; [done|].
  split; [rewrite lookup_insert_ne by done; apply lookup_delete_eq|].
  split; [apply lookup_insert_eq|].
  split; [intros j ? ?; by rewrite lookup_insert_ne, lookup_delete_ne|].
  split; [|split; [|done]].
  - intros ty' Hty'. rewrite Hty' in Hty. injection Hty as ->.
    destruct (is_chief_type ty); [apply lookup_insert_eq|done].
  - intros k Hk. destruct (is_chief_type ty); [|done].
    by rewrite lookup_insert_ne.
Qed.

(** X22: the rewrite is idempotent (the configuration it produces is
    left alone by a second pass); it changes nothing when the cluster
    has an evaluator, no parameter server or no chief; and when it does
    apply but the configuration has no task type, it raises
    [KeyError]. *)
Theorem rewrite_tf_config_idempotent c :
  (∀ c', rewrite_tf_config c = Ok c' → rewrite_tf_config c' = Ok c')
  ∧ (∀ cl, cluster c = Some cl →
       is_Some (cl !! "evaluator") ∨ cl !! "ps" = None ∨ cl !! "chief" = None →
       rewrite_tf_config c = Ok c)
  ∧ (∀ cl h, cluster c = Some cl → cl !! "chief" = Some h →
       is_Some (cl !! "ps") → cl !! "evaluator" = None →
       (task c = None ∨ ∃ t, task c = Some t ∧ t !! "type" = None) →
       rewrite_tf_config c = Raise KeyError).
Proof.
  split; [|split].
  - intros c' Hrun. unfold rewrite_tf_config in Hrun.
    destruct (cluster c) as [cl|] eqn:Hcl; cycle 1.
    { injection Hrun as <-. unfold rewrite_tf_config. by rewrite Hcl. }
    destruct (cl !! "chief") as [h|] eqn:Hchief; cycle 1.
    { injection Hrun as <-. unfold rewrite_tf_config.
      by rewrite Hcl, Hchief. }
    destruct (bool_decide (is_Some (cl !! "ps"))
              && negb (bool_decide (is_Some (cl !! "evaluator")))) eqn:Hcond;
      cycle 1.
    { injection Hrun as <-. unfold rewrite_tf_config.
      by rewrite Hcl, Hchief, Hcond. }
    destruct (task c) as [t|]; [|done].
    destruct (t !! "type") as [ty|]; [|done].
    injection Hrun as <-. unfold rewrite_tf_config. cbn [cluster].
    by rewrite lookup_insert_ne, lookup_delete_eq.
  - intros cl Hcl Hcond. unfold rewrite_tf_config. rewrite Hcl.
    destruct (cl !! "chief") as [h|]; [|done].
    destruct Hcond as [Hev|[Hps|?]]; [| |done].
    + rewrite (bool_decide_eq_true_2 _ Hev). by rewrite andb_false_r.
    + rewrite bool_decide_eq_false_2; [done|]. rewrite Hps. by intros [? ?].
  - intros cl h Hcl Hchief Hps Hev Htask. unfold rewrite_tf_config.
    rewrite Hcl, Hchief, (bool_decide_eq_true_2 _ Hps).
    rewrite bool_decide_eq_false_2 by (rewrite Hev; by intros [? ?]).
    cbn [andb negb]. destruct Htask as [->|(t & -> & ->)]; done.
Qed.

End TFConfigFacts.

Section TFConfigExample.
Import Main.

Lemma rewrite_moves_chief_to_master_witness :
  let cl : gmap string (list string) :=
    <["chief" := ["host0:2222"]]> (<["ps" := ["host1:2222"]]>
      {["worker" := ["host2:2222"]]}) in
  let c : tf_config (list string) Z :=
    {| cluster := Some cl;
       task := Some (<["type" := TaskStr "chief"]> {["index" := TaskOther 0]});
       others := ∅ |} in
  ∃ c' cl' t',
    rewrite_tf_config c = Ok c' ∧ cluster c' = Some cl' ∧ task c' = Some t' ∧
    cl' !! "chief" = None ∧ cl' !! "master" = Some ["host0:2222"] ∧
    t' !! "type" = Some (TaskStr "master").
Proof.
  intros cl c.
  assert (Hrun : rewrite_tf_config c
            = Ok {| cluster := Some (<["master" := ["host0:2222"]]>
                                       (delete "chief" cl));
                    task := Some (<["type" := TaskStr "master"]>
                                    (<["type" := TaskStr "chief"]>
                                       {["index" := TaskOther 0]}));
                    others := ∅ |}) by reflexivity.
  destruct (rewrite_moves_chief_to_master c _ cl ["host0:2222"]
              eq_refl eq_refl (mk_is_Some _ _ eq_refl) eq_refl Hrun)
    as (cl' & t & t' & Hcl' & Ht & Ht' & Hnochief & Hmaster & _ & Hty & _).
  eexists _, cl', t'. split; [exact Hrun|]. split; [exact Hcl'|].
  split; [exact Ht'|]. split; [exact Hnochief|]. split; [exact Hmaster|].
  injection Ht as <-. exact (Hty (TaskStr "chief") eq_refl).
Defined.

Lemma rewrite_tf_config_idempotent_witness :
  let cl : gmap string (list string) :=
    <["chief" := ["host0:2222"]]> (<["ps" := ["host1:2222"]]>
      {["evaluator" := ["host2:2222"]]}) in
  let c : tf_config (list string) Z :=
    {| cluster := Some cl; task := None; others := ∅ |} in
  is_Some (cl !! "evaluator") ∧ rewrite_tf_config c = Ok c.
Proof.
  intros cl c.
  assert (Hev : is_Some (cl !! "evaluator")) by (by eexists).
  split; [exact Hev|].
  exact (proj1 (proj2 (rewrite_tf_config_idempotent c)) cl eq_refl
           (or_introl Hev)).
Defined.

End TFConfigExample.

(** ** [KafkaInput._preprocess] *)

Section PreprocessFacts.
Context {T : Type}.
Variable DATA_OFFSET : string.
Variable super_preprocess :
  list string → gmap string T →
  list string * gmap string T * result (gmap string T).

(** X23: when the base class's preprocessing succeeds, the offset field
    of the input passes through unchanged, whatever the base class
    computed under that name, and every other output is the base
    class's; [_appended_fields] ends up naming the offset field, which
    is added at the end only if it was not named yet, so no duplicate
    is ever introduced. *)
Theorem preprocess_keeps_offset
    (appended_fields appended1 : list string)
    (field_dict field_dict1 output_dict : gmap string T) :
  super_preprocess appended_fields field_dict
    = (appended1, field_dict1, Ok output_dict) →
  let r := Preprocess._preprocess DATA_OFFSET super_preprocess
             appended_fields field_dict in
  ∃ out,
    r.2 = Ok out
    ∧ (∀ v, field_dict1 !! DATA_OFFSET = Some v → out !! DATA_OFFSET = Some v)
    ∧ (field_dict1 !! DATA_OFFSET = None → out = output_dict)
    ∧ (∀ k, k ≠ DATA_OFFSET → out !! k = output_dict !! k)
    ∧ DATA_OFFSET ∈ r.1
    ∧ (DATA_OFFSET ∈ appended1 → r.1 = appended1)
    ∧ (DATA_OFFSET ∉ appended1 → r.1 = (appended1 ++ [DATA_OFFSET])%list)
    ∧ (NoDup appended1 → NoDup r.1).
Proof.
  intros Hsuper. cbv zeta. unfold Preprocess._preprocess. rewrite Hsuper.
  cbn [fst snd]. eexists. split; [done|].
  split; [by intros v ->; apply lookup_insert_eq|].
  split; [by intros ->|].
  split; [intros k Hk; destruct (field_dict1 !! DATA_OFFSET);
          [by rewrite lookup_insert_ne|done]|].
  case_bool_decide as Hin.
  - split; [done|]. split; [done|]. split; [done|done].
  - split; [apply elem_of_app; right; left|]. split; [done|].
    split; [done|]. intros Hnd. apply NoDup_app. split; [done|].
    split; [|apply NoDup_singleton].
    intros x Hx ->%list_elem_of_singleton. done.
Qed.

End PreprocessFacts.

Section PreprocessExample.

Lemma preprocess_keeps_offset_witness :
  let super := λ (a : list string) (f : gmap string Z),
                 (a, f, Ok (delete "DATA_OFFSET" f)) in
  let field_dict : gmap string Z := <["DATA_OFFSET" := 7]> {["clk" := 1]} in
  ∃ out,
    (Preprocess._preprocess "DATA_OFFSET" super ["clk"] field_dict).2 = Ok out
    ∧ out !! "DATA_OFFSET" = Some 7.
Proof.
  intros super field_dict.
  destruct (preprocess_keeps_offset "DATA_OFFSET" super ["clk"] ["clk"]
              field_dict field_dict (delete "DATA_OFFSET" field_dict) eq_refl)
    as (out & Hout & Hoff & _).
  exists out. split; [exact Hout|]. exact (Hoff 7 eq_refl).
Defined.

End PreprocessExample.

(** ** [OdpsRTPInput._parse_table] *)

Section RTPFacts.
Import RTP.
Context {T D FT DV : Type}.
Variable get_type_defaults : FT → DV → D.
Variable decode_csv : T → list D → string → list T.

Abbreviation schema := (@RTP.schema FT DV).
Abbreviation parse := (RTP._parse_table get_type_defaults decode_csv).
Abbreviation defaults := (RTP.record_defaults get_type_defaults).

Lemma index_None x l : index x l = None ↔ x ∉ l.
Proof.
  induction l as [|y l IH]; [by split; [intros _ ?%elem_of_nil|]|].
  cbn. destruct (String.eqb_spec y x) as [->|Hne].
  - split; [done|]. intros H. exfalso. apply H. left.
  - destruct (index x l) as [i|] eqn:Hi; cbn.
    + split; [done|]. intros H. exfalso.
      assert (x ∉ l) as Hx by (intros ?; apply H; by right).
      by apply IH in Hx.
    + split; [|done]. intros _ [?|?]%elem_of_cons; [done|].
      by apply (proj1 IH).
Qed.

Lemma index_Some x l i : index x l = Some i → l !! i = Some x.
Proof.
  revert i. induction l as [|y l IH]; intros i; [done|]. cbn.
  destruct (String.eqb_spec y x) as [->|Hne]; [by intros [= <-]|].
  destruct (index x l) as [j|]; [|done]. cbn. intros [= <-]. by apply IH.
Qed.

Lemma indexes_fail l xs x :
  x ∈ xs → x ∉ l → indexes l xs = Fail NotInList.
Proof.
  intros Hin Hx. induction xs as [|y xs IH]; [by apply elem_of_nil in Hin|].
  cbn. destruct (index y l) as [i|] eqn:Hi; [|done].
  apply elem_of_cons in Hin as [->|Hin].
  - apply index_None in Hx. congruence.
  - by rewrite (IH Hin).
Qed.

Lemma indexes_done l xs :
  Forall (λ x, x ∈ l) xs →
  ∃ fids, indexes l xs = Done fids ∧
          Forall2 (λ x i, index x l = Some i) xs fids.
Proof.
  induction 1 as [|x xs Hx _ (fids & Hf & Hall)]; [by exists []|].
  cbn. destruct (index x l) as [i|] eqn:Hi.
  - rewrite Hf. exists (i :: fids). split; [done|]. by constructor.
  - apply index_None in Hi. done.
Qed.

Lemma feature_inputs_spec keys (decoded : list T) xs fids :
  Forall2 (λ x i, index x keys = Some i) xs fids →
  (length keys ≤ length decoded)%nat → ∀ acc,
  ∃ inputs, feature_inputs keys decoded fids acc = Done inputs ∧
    ∀ k, (k ∈ xs → ∃ i, index k keys = Some i ∧
                        inputs !! k = decoded !! i ∧ is_Some (decoded !! i))
         ∧ (k ∉ xs → inputs !! k = acc !! k).
Proof.
  intros Hall Hlen. induction Hall as [|x i xs fids Hi _ IH]; intros acc.
  - exists acc. split; [done|]. intros k.
    split; [by intros ?%elem_of_nil|done].
  - pose proof (index_Some _ _ _ Hi) as Hkey.
    assert (is_Some (decoded !! i)) as [v Hv].
    { apply lookup_lt_is_Some. apply lookup_lt_Some in Hkey. lia. }
    cbn [feature_inputs]. rewrite Hkey, Hv.
    destruct (IH (<[x := v]> acc)) as (inputs & Hrun & Hspec).
    exists inputs. split; [done|]. intros k.
    destruct (Hspec k) as [Hin Hout]. split.
    + intros Hk. destruct (decide (k ∈ xs)) as [Hk'|Hk']; [by apply Hin|].
      apply elem_of_cons in Hk as [->|?]; [|done].
      exists i. rewrite (Hout Hk'), lookup_insert_eq, Hv. by eauto.
    + intros Hk. rewrite Hout by (intros ?; apply Hk; by right).
      apply lookup_insert_ne. intros ->. apply Hk. left.
Qed.

Lemma label_inputs_spec (ls : list string) (labels : list T) :
  NoDup ls → ∀ x acc, (x + length ls ≤ length labels)%nat →
  ∃ inputs, label_inputs ls labels x acc = Done inputs ∧
    (∀ j l, ls !! j = Some l → inputs !! l = labels !! (x + j)%nat) ∧
    (∀ k, k ∉ ls → inputs !! k = acc !! k).
Proof.
  induction 1 as [|l ls Hl Hnd IH]; intros x acc Hlen.
  - exists acc. by split; [|split].
  - cbn [length] in Hlen. assert (is_Some (labels !! x)) as [v Hv]
      by (apply lookup_lt_is_Some; lia).
    cbn [label_inputs]. rewrite Hv.
    destruct (IH (S x) (<[l := v]> acc)) as (inputs & Hrun & Hlab & Hoth);
      [lia|].
    exists inputs. split; [done|]. split.
    + intros [|j] l' Hj; cbn in Hj.
      * injection Hj as <-. rewrite (Hoth l Hl), lookup_insert_eq.
        by rewrite Nat.add_0_r.
      * rewrite (Hlab j l' Hj). f_equal. lia.
    + intros k Hk. rewrite Hoth by (intros ?; apply Hk; by right).
      apply lookup_insert_ne. intros ->. apply Hk. left.
Qed.

Lemma filter_zip3_length (P : string → Prop) `{∀ x, Decision (P x)}
    (xs : list string) : ∀ (ts : list FT) (vs : list DV),
  (length xs ≤ length ts)%nat → (length xs ≤ length vs)%nat →
  length (filter (λ xtv : string * FT * DV, P xtv.1.1) (zip3 xs ts vs))
    = length (filter P xs).
Proof.
  induction xs as [|x xs IH]; intros ts vs Hts Hvs; [done|].
  destruct ts as [|t ts]; [cbn in Hts; lia|].
  destruct vs as [|v vs]; [cbn in Hvs; lia|].
  cbn [zip3]. rewrite !filter_cons. cbn [fst snd].
  cbn in Hts, Hvs. case_decide; cbn [length]; rewrite IH by lia; done.
Qed.

(** X24: a feature named in [_effective_fields] must be an input field
    that is not a label: with at least one column given, an effective
    field that is a label field, or is no input field at all, makes
    [_parse_table] raise the [ValueError] of [list.index]; and with no
    column at all it raises [IndexError]. *)
Theorem parse_table_rejects_label_feature (self : schema) (fields : list T) :
  (fields = [] → parse self fields = Fail IndexError)
  ∧ (∀ x, fields ≠ [] → x ∈ _effective_fields self →
          x ∈ _label_fields self ∨ x ∉ _input_fields self →
          parse self fields = Fail NotInList).
Proof.
  split; [by intros ->|]. intros x Hne Hx Hbad. unfold _parse_table.
  destruct (last fields) as [features|] eqn:Hlast;
    [|by apply last_None in Hlast].
  rewrite (indexes_fail _ _ x Hx); [done|].
  unfold field_keys. rewrite list_elem_of_filter. tauto.
Qed.

(** X25: when the columns are the label columns followed by the feature
    column, every effective field is a non-label input field, and the
    decoder returns one column per default, [_parse_table] succeeds:
    each label field gets the column at its position, each effective
    field gets the decoded column at its position among the non-label
    input fields, and the dictionary has no other entry (columns beyond
    the label fields are ignored). *)
Theorem parse_table_inputs (self : schema) (fields : list T) (features : T) :
  last fields = Some features →
  Forall (λ x, x ∈ field_keys self) (_effective_fields self) →
  length (decode_csv features (defaults self) (separator self))
    = length (defaults self) →
  (length (_input_fields self) ≤ length (_input_field_types self))%nat →
  (length (_input_fields self) ≤ length (_input_field_defaults self))%nat →
  NoDup (_label_fields self) →
  (length (_label_fields self) ≤ length fields - 1)%nat →
  ∃ inputs,
    parse self fields = Done inputs
    ∧ (∀ j l, _label_fields self !! j = Some l → inputs !! l = fields !! j)
    ∧ (∀ f, f ∈ _effective_fields self →
            ∃ i, index f (field_keys self) = Some i ∧
                 inputs !! f
                   = decode_csv features (defaults self) (separator self) !! i ∧
                 is_Some (inputs !! f))
    ∧ (∀ k, is_Some (inputs !! k) →
            k ∈ _label_fields self ∨ k ∈ _effective_fields self).
Proof.
  intros Hlast Heff Hdec Hts Hvs Hnd Hlab. unfold _parse_table.
  rewrite Hlast.
  destruct (indexes_done _ _ Heff) as (fids & -> & Hfids).
  set (decoded := decode_csv features (defaults self) (separator self)) in *.
  assert (Hlen : (length (field_keys self) ≤ length decoded)%nat).
  { rewrite Hdec. unfold record_defaults, field_keys. rewrite length_fmap.
    pose proof (filter_zip3_length (λ x, x ∉ _label_fields self)
                  (_input_fields self) _ _ Hts Hvs) as E.
    cbn beta in E. by rewrite E. }
  destruct (feature_inputs_spec _ decoded _ _ Hfids Hlen ∅)
    as (inputs0 & -> & Hfeat).
  destruct (label_inputs_spec (_label_fields self)
              (take (length fields - 1) fields) Hnd 0 inputs0)
    as (inputs & -> & Hl & Hoth).
  { rewrite length_take. lia. }
  exists inputs. split; [done|].
  assert (Hnolabel : ∀ f, f ∈ _effective_fields self → f ∉ _label_fields self).
  { intros f Hf. apply (proj1 (Forall_forall _ _) Heff) in Hf.
    unfold field_keys in Hf. by apply list_elem_of_filter in Hf as [? _]. }
  split; [|split].
  - intros j l Hj. rewrite (Hl j l Hj). cbn.
    apply lookup_take_lt. apply lookup_lt_Some in Hj. lia.
  - intros f Hf. destruct (Hfeat f) as [Hin _].
    destruct (Hin Hf) as (i & Hi & Hval & Hsome).
    exists i. rewrite (Hoth f (Hnolabel f Hf)), Hval. done.
  - intros k Hk.
    destruct (decide (k ∈ _label_fields self)) as [|Hkl]; [by left|].
    right. rewrite (Hoth k Hkl) in Hk.
    destruct (decide (k ∈ _effective_fields self)) as [|Hke]; [done|].
    destruct (Hfeat k) as [_ Hout]. rewrite (Hout Hke), lookup_empty in Hk.
    by destruct Hk.
Qed.

End RTPFacts.

Section RTPExample.
Import RTP.

Lemma parse_table_rejects_label_feature_witness :
  let self := {| _input_fields := ["clk"; "item_id"];
                 _input_field_types := [tt; tt];
                 _input_field_defaults := ["0"; ""];
                 _label_fields := ["clk"];
                 _effective_fields := ["item_id"; "clk"];
                 separator := "," |} in
  "clk" ∈ _label_fields self ∧
  RTP._parse_table (λ _ v, v) ExampleRTP.decode_columns self ["1"; "7"]
    = Fail NotInList.
Proof.
  intros self.
  assert (Hlab : "clk" ∈ _label_fields self) by left.
  split; [exact Hlab|].
  refine (proj2 (parse_table_rejects_label_feature (λ _ v, v)
                   ExampleRTP.decode_columns self ["1"; "7"])
            "clk" _ _ (or_introl Hlab)).
  - discriminate.
  - right. left.
Defined.

Lemma parse_table_inputs_witness :
  let self := ExampleRTP.rtp_schema in
  ∃ inputs,
    RTP._parse_table (λ _ v, v) ExampleRTP.decode_columns self ["1"; "7,9"]
      = Done inputs
    ∧ (∀ j l, _label_fields self !! j = Some l →
              inputs !! l = ["1"; "7,9"] !! j).
Proof.
  intros self.
  assert (Heff : Forall (λ x, x ∈ field_keys self) (_effective_fields self)).
  { repeat constructor. }
  assert (Hnd : NoDup (_label_fields self)).
  { apply NoDup_singleton. }
  assert (Hlab : (length (_label_fields self) ≤ length ["1"; "7,9"] - 1)%nat)
    by (cbn; lia).
  destruct (parse_table_inputs (λ _ v, v) ExampleRTP.decode_columns self
              ["1"; "7,9"] "7,9" eq_refl Heff eq_refl
              (le_n 3) (le_n 3) Hnd Hlab) as (inputs & Hrun & Hl & _).
  exists inputs. split; [exact Hrun|exact Hl].
Defined.

End RTPExample.

(** ** The stream of snapshots *)

Section StreamFacts.
Import Tracker.

(** X26: along a run, the snapshots never go backwards: a partition
    present in the snapshot one call returns is present in the snapshot
    of every later call that returns one, also when calls in between or
    before have raised, with an offset that is at least as large. *)
Theorem snapshots_monotone
    (batches : list (list string)) (d : gmap Z Z) (i j : nat)
    (si sj : gmap Z Z) (p v : Z) :
  outcomes d batches !! i = Some (Ok si) →
  outcomes d batches !! j = Some (Ok sj) →
  (i ≤ j)%nat →
  si !! p = Some v →
  ∃ v', sj !! p = Some v' ∧ v ≤ v'.
Proof.
  revert d i j. induction batches as [|b batches IH]; intros d i j Hi Hj Hij Hp;
    [done|].
  cbn [outcomes] in Hi, Hj.
  destruct (_parse_offset d b) as [d' r] eqn:Hb.
  destruct i as [|i], j as [|j]; cbn in Hi, Hj.
  - injection Hi as ->. injection Hj as <-. exists v. split; [done|lia].
  - injection Hi as ->.
    pose proof (parse_offset_snapshot _ _ _ _ Hb) as ->.
    by apply (outcomes_above batches d' sj j p v).
  - lia.
  - apply (IH d' i j Hi Hj); [lia|done].
Qed.

Lemma snapshots_monotone_witness :
  let batches := [["0:5"; "1:7"]; ["0:8"; "oops"]; ["0:3"]] in
  let rs := outcomes {[0 := 4]} batches in
  rs !! 0%nat = Some (Ok (<[1 := 7]> {[0 := 5]})) ∧
  rs !! 1%nat = Some (Raise ValueError) ∧
  rs !! 2%nat = Some (Ok (<[1 := 7]> {[0 := 8]})) ∧
  ∃ v', (<[1 := 7]> {[0 := 8]} : gmap Z Z) !! 0 = Some v' ∧ 5 ≤ v'.
Proof.
  intros batches rs.
  assert (H0 : rs !! 0%nat = Some (Ok (<[1 := 7]> {[0 := 5]})))
    by reflexivity.
  assert (H2 : rs !! 2%nat = Some (Ok (<[1 := 7]> {[0 := 8]})))
    by reflexivity.
  split; [exact H0|]. split; [reflexivity|]. split; [exact H2|].
  exact (snapshots_monotone batches {[0 := 4]} 0 2 _ _ 0 5 H0 H2
           (Nat.le_0_l 2) eq_refl).
Defined.

End StreamFacts.
